(** * Regulation Tracker: a shallow embedding of [app.py]

    The development follows the layout of the script: Python values
    (strings, dates, the [or] idiom, [str.find], slicing, [sorted]), the
    three ORM models and their tables, the seed data, the sidebar filter,
    the selection labels, and the three mutating blocks of the detail pane
    (regulation status, action editor, add-action form). *)

From Stdlib Require Import ZArith NArith List Bool Lia String Ascii.
From Stdlib Require Import Sorted Permutation.
From Stdlib Require DecimalZ.
Import ListNotations.
Open Scope Z_scope.

(* ------------------------------------------------------------------ *)
(** ** Python values *)
(* ------------------------------------------------------------------ *)

Module Py.

(** A Python [str] is a sequence of Unicode code points. *)
Definition char := N.
Definition str := list char.

(** An ASCII literal of the script, as code points. *)
Definition lit (s : string) : str :=
  List.map N_of_ascii (list_ascii_of_string s).

Fixpoint str_eqb (s t : str) : bool :=
  match s, t with
  | [], [] => true
  | c :: s', d :: t' => N.eqb c d && str_eqb s' t'
  | _, _ => false
  end.

(** [x == y] where [x] is a nullable column and [y] a nullable value. *)
Definition opt_str_eqb (x y : option str) : bool :=
  match x, y with
  | None, None => true
  | Some s, Some t => str_eqb s t
  | _, _ => false
  end.

(** Truthiness of a string: [if s:]. *)
Definition truthy (s : str) : bool :=
  match s with [] => false | _ :: _ => true end.

(** [x or d] for a nullable string [x]: [None] and [""] are falsy. *)
Definition or_str (x : option str) (d : str) : str :=
  match x with
  | Some (c :: s) => c :: s
  | _ => d
  end.

(** [s.startswith(sub)], the test [str.find] repeats at each offset. *)
Fixpoint startswith (s sub : str) {struct sub} : bool :=
  match sub, s with
  | [], _ => true
  | c :: sub', d :: s' => N.eqb c d && startswith s' sub'
  | _ :: _, [] => false
  end.

(** [s.find(sub)]: the lowest index at which [sub] occurs, else [-1]. *)
Fixpoint find_at (i : Z) (s sub : str) : Z :=
  if startswith s sub then i
  else match s with
       | [] => -1
       | _ :: s' => find_at (i + 1) s' sub
       end.

Definition find (s sub : str) : Z := find_at 0 s sub.

(** [s[:n]] for a non-negative literal [n]. *)
Definition slice_to (n : nat) (s : str) : str := firstn n s.

(** [str(i)] for an [int]: decimal digits, with a leading minus sign. *)
Fixpoint uint_codes (u : Decimal.uint) : str :=
  match u with
  | Decimal.Nil => []
  | Decimal.D0 u => 48%N :: uint_codes u
  | Decimal.D1 u => 49%N :: uint_codes u
  | Decimal.D2 u => 50%N :: uint_codes u
  | Decimal.D3 u => 51%N :: uint_codes u
  | Decimal.D4 u => 52%N :: uint_codes u
  | Decimal.D5 u => 53%N :: uint_codes u
  | Decimal.D6 u => 54%N :: uint_codes u
  | Decimal.D7 u => 55%N :: uint_codes u
  | Decimal.D8 u => 56%N :: uint_codes u
  | Decimal.D9 u => 57%N :: uint_codes u
  end.

Definition str_of_int (i : Z) : str :=
  match Z.to_int i with
  | Decimal.Pos u => uint_codes u
  | Decimal.Neg u => 45%N :: uint_codes u
  end.

(** [l.index(x)] on a list of strings: position of the first equal
    element; Python raises [ValueError] when there is none. *)
Fixpoint index_of (l : list str) (x : str) : option nat :=
  match l with
  | [] => None
  | y :: l' => if str_eqb y x then Some O
               else option_map S (index_of l' x)
  end.

(** [datetime.date]: compared as the triple (year, month, day). *)
Record date := mkdate { year : Z; month : Z; day : Z }.

(** [date.max] *)
Definition date_max : date := mkdate 9999 12 31.

(** [a < b] on dates. *)
Definition date_ltb (a b : date) : bool :=
  (year a <? year b)
  || ((year a =? year b)
      && ((month a <? month b)
          || ((month a =? month b) && (day a <? day b)))).

(** The dates the [date] constructor accepts lie between [date.min]
    and [date.max]; the day bound per month is refined by
    [days_in_month]. *)
Definition is_leap (y : Z) : bool :=
  (y mod 4 =? 0) && (negb (y mod 100 =? 0) || (y mod 400 =? 0)).

Definition days_in_month (y m : Z) : Z :=
  if m =? 2 then (if is_leap y then 29 else 28)
  else if (m =? 4) || (m =? 6) || (m =? 9) || (m =? 11) then 30
  else 31.

Definition date_valid (d : date) : bool :=
  (1 <=? year d) && (year d <=? 9999)
  && (1 <=? month d) && (month d <=? 12)
  && (1 <=? day d) && (day d <=? days_in_month (year d) (month d)).

(** [datetime.datetime] *)
Record datetime := mkdatetime {
  dt_date : date; dt_hour : Z; dt_minute : Z; dt_second : Z;
  dt_microsecond : Z
}.

(** [x or d] for a nullable date (every date is truthy). *)
Definition or_date (x : option date) (d : date) : date :=
  match x with Some v => v | None => d end.

(** The stable sort behind [sorted(xs, key=k)].  Python compares keys
    with [<] only and keeps equal-keyed items in their input order; the
    output of a stable sort is determined by these two facts, so it is
    modelled by the insertion sort below. *)
Section Sorted.
Context {A K : Type} (key : A -> K) (ltb : K -> K -> bool).

Fixpoint insert (x : A) (l : list A) : list A :=
  match l with
  | [] => [x]
  | y :: l' =>
      if ltb (key y) (key x) then y :: insert x l' else x :: y :: l'
  end.

Fixpoint sorted (l : list A) : list A :=
  match l with
  | [] => []
  | x :: l' => insert x (sorted l')
  end.
End Sorted.

End Py.

Import Py.

(* ------------------------------------------------------------------ *)
(** ** Models *)
(* ------------------------------------------------------------------ *)

(** Nullable columns are [option]s; [title] is [nullable=False]. *)
Module Regulation.
Record t := mk {
  id : Z;
  title : str;
  source : option str;
  jurisdiction : option str;
  category : option str;
  effective_date : option date;
  received_at : option datetime;
  summary : option str;
  status : option str
}.

Definition set_status (r : t) (v : option str) : t :=
  mk (id r) (title r) (source r) (jurisdiction r) (category r)
     (effective_date r) (received_at r) (summary r) v.
End Regulation.

Module RegulationLink.
Record t := mk {
  id : Z;
  regulation_id : option Z;
  url : str;
  link_type : option str;
  title : option str
}.
End RegulationLink.

Module Action.
Record t := mk {
  id : Z;
  regulation_id : option Z;
  title : str;
  description : option str;
  status : option str;
  assignee : option str;
  due_date : option date;
  completed_at : option datetime
}.

(** The keyword arguments the script passes to [Action(...)]; [None]
    stands for an argument that is not passed. *)
Record kwargs := mk_kwargs {
  k_regulation_id : option Z;
  k_title : str;
  k_description : option str;
  k_status : option str;
  k_assignee : option str;
  k_due_date : option date
}.

(** [Column(String, default="Planned")] *)
Definition status_default : str := lit "Planned".

(** The row written at flush time for a new object: the primary key is
    the one the table hands out, a column that was not set takes its
    column default ([status]) or stays NULL ([completed_at]). *)
Definition row (new_id : Z) (k : kwargs) : t :=
  mk new_id (k_regulation_id k) (k_title k) (k_description k)
     (match k_status k with
      | Some v => Some v
      | None => Some status_default
      end)
     (k_assignee k) (k_due_date k) None.
End Action.

(* ------------------------------------------------------------------ *)
(** ** The database behind [SessionLocal] *)
(* ------------------------------------------------------------------ *)

Record DB := mkDB {
  regulations : list Regulation.t;
  regulation_links : list RegulationLink.t;
  actions : list Action.t
}.

Definition empty_db : DB := mkDB [] [] [].

(** Primary keys of the default SQLite engine: one more than the largest
    key in the table. *)
Definition fresh_id (ids : list Z) : Z := 1 + fold_right Z.max 0 ids.

Definition opt_Z_eqb (x y : option Z) : bool :=
  match x, y with
  | None, None => true
  | Some a, Some b => a =? b
  | _, _ => false
  end.

(** [s.get(Regulation, id)] *)
Definition get_regulation (db : DB) (i : Z) : option Regulation.t :=
  List.find (fun r => Regulation.id r =? i) (regulations db).

(** [s.get(Action, id)] *)
Definition get_action (db : DB) (i : Z) : option Action.t :=
  List.find (fun a => Action.id a =? i) (actions db).

(** [reg.actions]: the rows whose foreign key is [reg.id], in table order. *)
Definition reg_actions (db : DB) (reg : Regulation.t) : list Action.t :=
  List.filter
    (fun a => opt_Z_eqb (Action.regulation_id a) (Some (Regulation.id reg)))
    (actions db).

(** [s.add(reg); s.commit()] for a loaded regulation: UPDATE by key. *)
Definition commit_regulation (db : DB) (reg : Regulation.t) : DB :=
  mkDB (List.map (fun r => if Regulation.id r =? Regulation.id reg
                           then reg else r) (regulations db))
       (regulation_links db) (actions db).

(** [s.add(a); s.commit()] for a loaded action: UPDATE by key. *)
Definition commit_action (db : DB) (a : Action.t) : DB :=
  mkDB (regulations db) (regulation_links db)
       (List.map (fun x => if Action.id x =? Action.id a then a else x)
                 (actions db)).

(** [s.add(new_a); s.commit()] for a new action: INSERT. *)
Definition insert_action (db : DB) (k : Action.kwargs) : DB :=
  mkDB (regulations db) (regulation_links db)
       (actions db
          ++ [Action.row (fresh_id (List.map Action.id (actions db))) k]).

(** [s.delete(a); s.commit()] *)
Definition delete_action (db : DB) (a : Action.t) : DB :=
  mkDB (regulations db) (regulation_links db)
       (List.filter (fun x => negb (Action.id x =? Action.id a))
                    (actions db)).

Definition insert_link (db : DB) (rid : Z) (url : str) (ty title : str)
  : DB :=
  mkDB (regulations db)
       (regulation_links db
          ++ [RegulationLink.mk
                (fresh_id (List.map RegulationLink.id (regulation_links db)))
                (Some rid) url (Some ty) (Some title)])
       (actions db).

Definition insert_regulation (db : DB) (r : Regulation.t) : DB :=
  mkDB (regulations db ++ [r]) (regulation_links db) (actions db).

(* ------------------------------------------------------------------ *)
(** ** Seed data *)
(* ------------------------------------------------------------------ *)

Definition at_time (y m d hh mm ss : Z) : datetime :=
  mkdatetime (mkdate y m d) hh mm ss 0.

Definition r1 : Regulation.t :=
  Regulation.mk 1 (lit "EU MRV 2025 Amendments")
    (Some (lit "EU")) (Some (lit "EU")) (Some (lit "Environmental"))
    (Some (mkdate 2025 1 1)) (Some (at_time 2025 7 15 10 0 0))
    (Some (lit "Revised monitoring & reporting for CO" ++ [8322%N]
             ++ lit " and CH" ++ [8324%N] ++ lit "."))
    (Some (lit "In Progress")).

Definition r2 : Regulation.t :=
  Regulation.mk 2 (lit "IMO MARPOL Annex VI NOx Tier III Guidance")
    (Some (lit "IMO")) (Some (lit "Global")) (Some (lit "Technical"))
    (Some (mkdate 2025 6 30)) (Some (at_time 2025 7 20 9 0 0))
    (Some (lit "Clarifies EIAPP documentation and testing windows for retrofits."))
    (Some (lit "Open")).

Definition r3 : Regulation.t :=
  Regulation.mk 3 (lit "USCG Policy Letter 25-04 on E-Navigation Logs")
    (Some (lit "USCG")) (Some (lit "USA")) (Some (lit "Navigation"))
    (Some (mkdate 2025 9 1)) (Some (at_time 2025 7 25 12 30 0))
    (Some (lit "Accepts specific e-nav log formats with integrity checks."))
    (Some (lit "Open")).

Definition seed_actions : list Action.kwargs :=
  [ Action.mk_kwargs (Some 1)
      (lit "Update data pipeline for CH" ++ [8324%N])
      (Some (lit "Include methane reporting in MRV extracts"))
      (Some (lit "In Progress")) (Some (lit "A. Smith"))
      (Some (mkdate 2025 8 20));
    Action.mk_kwargs (Some 1)
      (lit "Crew circular MRV changes")
      (Some (lit "Ops circular outlining new monitoring plan"))
      (Some (lit "Planned")) (Some (lit "M. Lopez"))
      (Some (mkdate 2025 8 25));
    Action.mk_kwargs (Some 2)
      (lit "Assess retrofit feasibility")
      (Some (lit "Check Tier III compliance options for 2012-2016 builds"))
      (Some (lit "Planned")) (Some (lit "J. Kim"))
      (Some (mkdate 2025 9 10)) ].

Definition seed_if_empty (db : DB) : DB :=
  if negb (Nat.eqb (List.length (regulations db)) 0) then db
  else
    let db := fold_left insert_regulation [r1; r2; r3] db in
    let db := insert_link db 1
      (lit "https://eur-lex.europa.eu/legal-content/EN/TXT/?uri=CELEX:32025R-MRV")
      (lit "official") (lit "EUR-Lex: MRV 2025") in
    let db := insert_link db 1 (lit "https://example.com/mrv-guide.pdf")
      (lit "guidance") (lit "Practical MRV Guide (PDF)") in
    let db := insert_link db 2
      (lit "https://www.imo.org/en/OurWork/Environment/Pages/Air-Pollution.aspx")
      (lit "official") (lit "IMO Air Pollution") in
    let db := insert_link db 3
      (lit "https://www.dco.uscg.mil/Portals/9/CG-ENG/Policy")
      (lit "official") (lit "USCG Policy Portal") in
    fold_left insert_action seed_actions db.

Definition seed_db : DB := Eval vm_compute in seed_if_empty empty_db.


(* ------------------------------------------------------------------ *)
(** ** Exceptions *)
(* ------------------------------------------------------------------ *)

(** The only exception the script's own expressions can raise is the
    [ValueError] of [list.index]. *)
Inductive exn := ValueError.

Inductive result (A : Type) :=
| Ok (a : A)
| Raise (e : exn).
Arguments Ok {A} a.
Arguments Raise {A} e.

Definition bind {A B} (m : result A) (k : A -> result B) : result B :=
  match m with
  | Ok a => k a
  | Raise e => Raise e
  end.

Notation "x <- m ;; k" := (bind m (fun x => k))
  (at level 61, m at next level, right associativity).

(** [l.index(x)] *)
Definition list_index (l : list str) (x : str) : result nat :=
  match index_of l x with
  | Some i => Ok i
  | None => Raise ValueError
  end.

(* ------------------------------------------------------------------ *)
(** ** Streamlit widgets *)
(* ------------------------------------------------------------------ *)

(** A widget returns the value the session holds for it, and its
    [value=] (or [index=]) default when the session holds none.  The
    session's side is an [option]: [None] for a widget without a value
    in the session.  A widget without a [key=] is identified by its
    label and arguments, so the value held for it may have been entered
    in an earlier run in which the same call was made. *)
Module st.
Definition text_input (value : str) (entered : option str) : str :=
  match entered with Some v => v | None => value end.

Definition text_area (value : str) (entered : option str) : str :=
  match entered with Some v => v | None => value end.

(** [a <= b] on dates. *)
Definition date_leb (a b : date) : bool := negb (date_ltb b a).

(** The date [years] years from [d]; 29 February moves to 28 February
    when the target year has none. *)
Definition adjust_years (d : date) (years : Z) : date :=
  let y := year d + years in
  if (month d =? 2) && (day d =? 29) && negb (is_leap y)
  then mkdate y 2 28
  else mkdate y (month d) (day d).

(** The dates a date widget with default [value] accepts: [min_value]
    and [max_value] are not passed, so they are ten years before and
    after [value]. *)
Definition date_in_range (value d : date) : bool :=
  date_leb (adjust_years value (-10)) d
  && date_leb d (adjust_years value 10).

(** [st.date_input(label, value=value)].  The entry is [Some None] when
    the operator has cleared the field, and the widget then returns
    [None]; an entered date outside the accepted range is discarded and
    the default returned. *)
Definition date_input (value : date) (entered : option (option date))
  : option date :=
  match entered with
  | None => Some value
  | Some None => None
  | Some (Some d) => if date_in_range value d then Some d else Some value
  end.

Definition checkbox (value : bool) (entered : option bool) : bool :=
  match entered with Some v => v | None => value end.

(** The operator can only pick one of the offered [options]. *)
Definition selectbox (options : list str) (index : nat)
                     (picked : option nat) : str :=
  let i := match picked with
           | Some i => if Nat.ltb i (List.length options) then i else index
           | None => index
           end in
  nth i options [].
End st.

(** The two clocks the script reads. *)
Record Clock := mkClock {
  utcnow : datetime;   (* datetime.utcnow() *)
  today : date         (* date.today() *)
}.

(* ------------------------------------------------------------------ *)
(** ** Sidebar filter (lines 133-150) *)
(* ------------------------------------------------------------------ *)

Record FilterSpec := mkFilter {
  q : option str;      (* st.text_input("Search ...") *)
  source : str;        (* st.selectbox("Source", ...) *)
  status : str;        (* st.selectbox("Status", ...) *)
  category : str       (* st.selectbox("Category", ...) *)
}.

Definition All : str := lit "All".

Section Filter.
(** [str.lower] is Python's Unicode lower-casing; the filter is
    modelled over any such function. *)
Variable lower : str -> str.

(** The disjunction of line 142. *)
Definition text_hit (ql : str) (r : Regulation.t) : bool :=
  (find (lower (or_str (Some (Regulation.title r)) [])) ql >=? 0)
  || (find (lower (or_str (Regulation.summary r) [])) ql >=? 0)
  || (find (lower (or_str (Regulation.jurisdiction r) [])) ql >=? 0).

(** The [for] loop: each [continue] skips [r], the last line appends. *)
Fixpoint filter_loop (ql source status category : str)
         (regs filtered : list Regulation.t) : list Regulation.t :=
  match regs with
  | [] => filtered
  | r :: regs' =>
      if truthy ql && negb (text_hit ql r)
      then filter_loop ql source status category regs' filtered
      else if negb (str_eqb source All)
              && negb (opt_str_eqb (Regulation.source r) (Some source))
      then filter_loop ql source status category regs' filtered
      else if negb (str_eqb status All)
              && negb (opt_str_eqb (Regulation.status r) (Some status))
      then filter_loop ql source status category regs' filtered
      else if negb (str_eqb category All)
              && negb (opt_str_eqb (Regulation.category r) (Some category))
      then filter_loop ql source status category regs' filtered
      else filter_loop ql source status category regs' (filtered ++ [r])
  end.

Definition listRegulations (f : FilterSpec) (db : DB)
  : list Regulation.t :=
  let regs := regulations db in
  let ql := lower (or_str (q f) []) in
  filter_loop ql (source f) (status f) (category f) regs [].
End Filter.

(** Lower-casing of the ASCII letters, which is what [str.lower] does on
    ASCII text; used to run the filter on the seed data. *)
Definition ascii_lower : str -> str :=
  List.map (fun c => if ((65 <=? c) && (c <=? 90))%N then (c + 32)%N else c).

(* ------------------------------------------------------------------ *)
(** ** Selection labels (lines 169-175) *)
(* ------------------------------------------------------------------ *)

(** U+2014 EM DASH between two spaces. *)
Definition dash : str := [32%N; 8212%N; 32%N].

(** [f"#{r.id} — {r.title[:80]}"] *)
Definition label (r : Regulation.t) : str :=
  lit "#" ++ str_of_int (Regulation.id r) ++ dash
    ++ slice_to 80 (Regulation.title r).

Definition ids (filtered : list Regulation.t) : list Z :=
  List.map Regulation.id filtered.

Definition titles (filtered : list Regulation.t) : list str :=
  List.map label filtered.

Definition none_label : str := lit "(none)".

(** Lines 171-175: the selected id, [None] while nothing is selected. *)
Definition selected_id (filtered : list Regulation.t)
                       (picked : option nat) : result (option Z) :=
  let selected_label := st.selectbox (none_label :: titles filtered) 0 picked in
  if negb (str_eqb selected_label none_label) then
    idx <- list_index (titles filtered) selected_label ;;
    Ok (nth_error (ids filtered) idx)
  else Ok None.

(** Line 187: the heading of the detail pane. *)
Definition detail_heading (reg : Regulation.t) : str :=
  lit "### " ++ Regulation.title reg.

(* ------------------------------------------------------------------ *)
(** ** Regulation status (lines 192-197) *)
(* ------------------------------------------------------------------ *)

Definition REGULATION_STATUSES : list str :=
  [lit "Open"; lit "In Progress"; lit "Closed"].

(** Lines 193-197, for the value the select box returned. *)
Definition update_status (new_status : str) (reg : Regulation.t)
                         (db : DB) : DB :=
  if negb (opt_str_eqb (Some new_status) (Regulation.status reg))
  then commit_regulation db (Regulation.set_status reg (Some new_status))
  else db.

(** Lines 192-197. *)
Definition status_block (picked : option nat) (reg : Regulation.t)
                        (db : DB) : result DB :=
  idx <- list_index REGULATION_STATUSES
           (or_str (Regulation.status reg) (lit "Open")) ;;
  let new_status := st.selectbox REGULATION_STATUSES idx picked in
  Ok (update_status new_status reg db).

(* ------------------------------------------------------------------ *)
(** ** Action editor (lines 208-238) *)
(* ------------------------------------------------------------------ *)

Definition ACTION_STATUSES : list str :=
  [lit "Planned"; lit "In Progress"; lit "Done"; lit "Blocked"].

Definition Done : str := lit "Done".

(** [lambda x: (x.due_date or date.max)] *)
Definition due_key (x : Action.t) : date :=
  or_date (Action.due_date x) date_max.

(** [sorted(reg.actions, key=...)] *)
Definition display_order (l : list Action.t) : list Action.t :=
  sorted due_key date_ltb l.

(** What the operator did with the widgets of one expander. *)
Record ActionWidgets := mkActionWidgets {
  w_title : option str;
  w_desc : option str;
  w_status : option nat;
  w_assignee : option str;
  w_due : option (option date);
  w_done : option bool;
  w_save : bool;
  w_delete : bool
}.

(** Lines 226-231: the assignments of the [if save:] branch. *)
Definition save_action (clock : Clock) (a : Action.t)
    (new_title new_desc new_status new_assignee : str)
    (new_due : option date) (done : bool) : Action.t :=
  let status := if done then Done else new_status in
  Action.mk (Action.id a) (Action.regulation_id a)
    new_title (Some new_desc) (Some status) (Some new_assignee)
    new_due
    (if str_eqb status Done then Some (utcnow clock) else None).

(** Lines 212-238: one expander. *)
Definition action_block (clock : Clock) (w : ActionWidgets)
                        (a : Action.t) (db : DB) : result DB :=
  let new_title := st.text_input (Action.title a) (w_title w) in
  let new_desc := st.text_area (or_str (Action.description a) []) (w_desc w) in
  idx <- list_index ACTION_STATUSES
           (or_str (Action.status a) (lit "Planned")) ;;
  let new_status := st.selectbox ACTION_STATUSES idx (w_status w) in
  let new_assignee :=
    st.text_input (or_str (Action.assignee a) []) (w_assignee w) in
  let new_due :=
    st.date_input (or_date (Action.due_date a) (today clock)) (w_due w) in
  let done :=
    st.checkbox (opt_str_eqb (Action.status a) (Some Done)) (w_done w) in
  let db :=
    if w_save w
    then commit_action db
           (save_action clock a new_title new_desc new_status new_assignee
                        new_due done)
    else db in
  let db := if w_delete w then delete_action db a else db in
  Ok db.

(** Lines 208-238: the expanders of a regulation, in display order; the
    widgets are keyed by the action's id. *)
Definition actions_pane (clock : Clock) (w : Z -> ActionWidgets)
                        (reg : Regulation.t) (db : DB) : result DB :=
  fold_left
    (fun acc a => db' <- acc ;; action_block clock (w (Action.id a)) a db')
    (display_order (reg_actions db reg)) (Ok db).

(* ------------------------------------------------------------------ *)
(** ** Add-action form (lines 242-252) *)
(* ------------------------------------------------------------------ *)

Record AddForm := mkAddForm {
  f_title : option str;
  f_desc : option str;
  f_assignee : option str;
  f_due : option (option date);
  f_submitted : bool
}.

(** The object of line 249. *)
Definition new_a (clock : Clock) (f : AddForm) (reg : Regulation.t)
  : Action.kwargs :=
  let atitle := st.text_input (lit "New action") (f_title f) in
  let adesc := st.text_area [] (f_desc f) in
  let aassignee := st.text_input [] (f_assignee f) in
  let adue := st.date_input (today clock) (f_due f) in
  Action.mk_kwargs (Some (Regulation.id reg)) atitle (Some adesc) None
                   (Some aassignee) adue.

Definition add_action (clock : Clock) (f : AddForm) (reg : Regulation.t)
                      (db : DB) : result DB :=
  if f_submitted f then Ok (insert_action db (new_a clock f reg))
  else Ok db.

(* ------------------------------------------------------------------ *)
(** ** Vocabulary of the statements *)
(* ------------------------------------------------------------------ *)

(** [sub] occurs in [s]. *)
Definition Substring (sub s : str) : Prop :=
  exists pre post, s = pre ++ sub ++ post.

(** [out] is [l] with exactly the elements satisfying [P] kept, each
    occurrence in its place. *)
Inductive Selects {A : Type} (P : A -> Prop) : list A -> list A -> Prop :=
| Selects_nil : Selects P [] []
| Selects_keep x l out :
    P x -> Selects P l out -> Selects P (x :: l) (x :: out)
| Selects_skip x l out :
    ~ P x -> Selects P l out -> Selects P (x :: l) out.

(** The free-text predicate in the words of the specification. *)
Definition text_matches (lower : str -> str) (query : str)
                        (r : Regulation.t) : Prop :=
  Substring (lower query) (lower (Regulation.title r))
  \/ Substring (lower query) (lower (or_str (Regulation.summary r) []))
  \/ Substring (lower query) (lower (or_str (Regulation.jurisdiction r) [])).

(** A facet is at the wildcard or equals the field exactly. *)
Definition facet_matches (want : str) (have : option str) : Prop :=
  want = All \/ have = Some want.

Definition facets_match (f : FilterSpec) (r : Regulation.t) : Prop :=
  facet_matches (source f) (Regulation.source r)
  /\ facet_matches (status f) (Regulation.status r)
  /\ facet_matches (category f) (Regulation.category r).

Definition satisfies (lower : str -> str) (f : FilterSpec)
                     (r : Regulation.t) : Prop :=
  text_matches lower (or_str (q f) []) r /\ facets_match f r.

(** The boolean test the loop performs on one regulation. *)
Definition keeps (lower : str -> str) (f : FilterSpec)
                 (r : Regulation.t) : bool :=
  let ql := lower (or_str (q f) []) in
  negb (truthy ql && negb (text_hit lower ql r))
  && negb (negb (str_eqb (source f) All)
           && negb (opt_str_eqb (Regulation.source r) (Some (source f))))
  && negb (negb (str_eqb (status f) All)
           && negb (opt_str_eqb (Regulation.status r) (Some (status f))))
  && negb (negb (str_eqb (category f) All)
           && negb (opt_str_eqb (Regulation.category r) (Some (category f)))).

(** [a] may stand before [b] in the display order: [b]'s key is not
    less than [a]'s. *)
Definition due_le (a b : Action.t) : Prop :=
  date_ltb (due_key b) (due_key a) = false.

Definition date_eqb (a b : date) : bool :=
  (year a =? year b) && (month a =? month b) && (day a =? day b).

(** The actions of [l] whose sort key is [d], in their order in [l]. *)
Definition with_key (d : date) (l : list Action.t) : list Action.t :=
  List.filter (fun a => date_eqb (due_key a) d) l.

(** No dated action stands after an undated one. *)
Definition undated_last (l : list Action.t) : Prop :=
  forall pre a post b,
    l = pre ++ a :: post -> Action.due_date a = None -> In b post ->
    Action.due_date b = None.

(** No action dated before [date.max] stands after an undated one. *)
Definition undated_after_earlier (l : list Action.t) : Prop :=
  forall pre a post b,
    l = pre ++ a :: post -> Action.due_date a = None -> In b post ->
    forall d, Action.due_date b = Some d -> date_ltb d date_max = false.

(** Two actions for the ordering examples. *)
Definition undated_action : Action.t :=
  Action.mk 1 (Some 1) (lit "Update pipeline") None (Some (lit "Planned"))
            None None None.

Definition max_dated_action : Action.t :=
  Action.mk 2 (Some 1) (lit "Decommission") None (Some (lit "Planned"))
            None (Some date_max) None.

Definition crew_circular : Action.t :=
  Action.mk 3 (Some 1) (lit "Crew circular") None (Some (lit "Planned"))
            None (Some (mkdate 2025 8 25)) None.

(** Lines 191-252: the three mutating blocks of the detail pane, in the
    order the script runs them. *)
Record PaneWidgets := mkPaneWidgets {
  p_status : option nat;
  p_actions : Z -> ActionWidgets;
  p_add : AddForm
}.

Definition detail_pane (clock : Clock) (p : PaneWidgets)
                       (reg : Regulation.t) (db : DB) : result DB :=
  db1 <- status_block (p_status p) reg db ;;
  db2 <- actions_pane clock (p_actions p) reg db1 ;;
  add_action clock (p_add p) reg db2.

(** The operation ended in an exception. *)
Definition failed {A} (r : result A) : Prop :=
  match r with
  | Raise _ => True
  | Ok _ => False
  end.

(** [completed_at] is set exactly when the status is ["Done"]. *)
Definition completed_iff_done (a : Action.t) : Prop :=
  Action.completed_at a <> None <-> Action.status a = Some Done.

(** The select box of an action can be drawn: its status is one of the
    offered values, or missing. *)
Definition status_offered (a : Action.t) : Prop :=
  In (or_str (Action.status a) (lit "Planned")) ACTION_STATUSES.

(** The same for the status select box of a regulation. *)
Definition regulation_status_offered (reg : Regulation.t) : Prop :=
  In (or_str (Regulation.status reg) (lit "Open")) REGULATION_STATUSES.

(** The value of the "Mark done" check box and of the status select box
    of an expander. *)
Definition done_flag (a : Action.t) (w : ActionWidgets) : bool :=
  st.checkbox (opt_str_eqb (Action.status a) (Some Done)) (w_done w).

Definition supplied_status (a : Action.t) (w : ActionWidgets) : str :=
  match index_of ACTION_STATUSES (or_str (Action.status a) (lit "Planned")) with
  | Some idx => st.selectbox ACTION_STATUSES idx (w_status w)
  | None => []
  end.

(** A clock reading and widget states for the examples. *)
Definition clock0 : Clock :=
  mkClock (at_time 2025 8 1 8 30 0) (mkdate 2025 8 1).

Definition untouched : ActionWidgets :=
  mkActionWidgets None None None None None None false false.

Definition press_save : ActionWidgets :=
  mkActionWidgets None None None None None None true false.

Definition tick_done_and_save : ActionWidgets :=
  mkActionWidgets None None None None None (Some true) true false.

Definition clear_title_and_save : ActionWidgets :=
  mkActionWidgets (Some []) None None None None None true false.

Definition clear_due_and_save : ActionWidgets :=
  mkActionWidgets None None None None (Some None) None true false.

Definition submit_cleared_due : AddForm :=
  mkAddForm None None None (Some None) true.

Definition submit_defaults : AddForm :=
  mkAddForm None None None None true.

Definition submit_empty_title : AddForm :=
  mkAddForm (Some []) None None None true.

Definition submit_assess_retrofit : AddForm :=
  mkAddForm (Some (lit "Assess retrofit")) None None None true.

(** The first seeded action, as loaded from the seeded database. *)
Definition seed_a1 : Action.t :=
  Eval vm_compute in
    match actions seed_db with
    | a :: _ => a
    | [] => undated_action
    end.

(** The action an expander writes when "Save" is pressed. *)
Definition edited (clock : Clock) (a : Action.t) (w : ActionWidgets)
  : Action.t :=
  save_action clock a
    (st.text_input (Action.title a) (w_title w))
    (st.text_area (or_str (Action.description a) []) (w_desc w))
    (supplied_status a w)
    (st.text_input (or_str (Action.assignee a) []) (w_assignee w))
    (st.date_input (or_date (Action.due_date a) (today clock)) (w_due w))
    (done_flag a w).

(** Filters and a regulation for the examples. *)
Definition filter_EU : FilterSpec := mkFilter None (lit "EU") All All.
Definition filter_IMO : FilterSpec := mkFilter None (lit "IMO") All All.

(** A title of 100 code points. *)
Definition long_title_regulation : Regulation.t :=
  Regulation.mk 7 (List.repeat 120%N 100) None None None None None None
                (Some (lit "Open")).

(* ------------------------------------------------------------------ *)
(** ** Sidebar options (lines 125-130) *)
(* ------------------------------------------------------------------ *)

(** [select(col).distinct()]: one row per value of the column, NULL
    being a value of its own.  The engine decides the order of the rows;
    here each value stands where it first occurs in the table. *)
Fixpoint distinct (col : list (option str)) : list (option str) :=
  match col with
  | [] => []
  | x :: col' =>
      x :: List.filter (fun y => negb (opt_str_eqb y x)) (distinct col')
  end.

(** [[r[0] for r in rows if r[0]]]: NULL and [""] are dropped. *)
Definition truthy_values (rows : list (option str)) : list str :=
  List.flat_map (fun x => match x with
                          | Some (c :: s) => [c :: s]
                          | _ => []
                          end) rows.

Definition sources (db : DB) : list str :=
  truthy_values (distinct (List.map Regulation.source (regulations db))).

Definition categories (db : DB) : list str :=
  truthy_values (distinct (List.map Regulation.category (regulations db))).

(** The options of the three select boxes of the sidebar. *)
Definition source_options (db : DB) : list str := All :: sources db.
Definition status_options : list str :=
  [All; lit "Open"; lit "In Progress"; lit "Closed"].
Definition category_options (db : DB) : list str := All :: categories db.

(* ------------------------------------------------------------------ *)
(** ** The right pane and what a run commits (lines 177-252) *)
(* ------------------------------------------------------------------ *)

(** Truthiness of [selected_id : Optional[int]]: [None] and [0] are
    falsy. *)
Definition int_truthy (x : option Z) : bool :=
  match x with
  | Some z => negb (z =? 0)
  | None => false
  end.

(** Every write of the detail pane is followed by its own [s.commit()],
    so a run that ends in an exception keeps the writes made before it.
    [run_actions] is the loop of the expanders with the database as
    committed when the loop is left, and the exception if one ended it. *)
Fixpoint run_actions (clock : Clock) (w : Z -> ActionWidgets)
         (l : list Action.t) (db : DB) : DB * option exn :=
  match l with
  | [] => (db, None)
  | a :: l' =>
      match action_block clock (w (Action.id a)) a db with
      | Ok db' => run_actions clock w l' db'
      | Raise e => (db, Some e)
      end
  end.

(** Lines 191-252 with the committed database. *)
Definition run_pane (clock : Clock) (p : PaneWidgets)
                    (reg : Regulation.t) (db : DB) : DB * option exn :=
  match status_block (p_status p) reg db with
  | Raise e => (db, Some e)
  | Ok db1 =>
      match run_actions clock (p_actions p)
                        (display_order (reg_actions db1 reg)) db1 with
      | (db2, Some e) => (db2, Some e)
      | (db2, None) =>
          match add_action clock (p_add p) reg db2 with
          | Ok db3 => (db3, None)
          | Raise e => (db2, Some e)
          end
      end
  end.

(** What the right column shows. *)
Inductive pane :=
| Info                       (* "Select a regulation on the left ..." *)
| NotFound                   (* st.error("Not found.") *)
| Detail (reg : Regulation.t) (committed : DB) (raised : option exn).

(** Lines 177-252. *)
Definition right_pane (clock : Clock) (p : PaneWidgets)
                      (selected : option Z) (db : DB) : pane :=
  if negb (int_truthy selected) then Info
  else match selected with
       | None => Info
       | Some i =>
           match get_regulation db i with
           | None => NotFound
           | Some reg =>
               let (db', e) := run_pane clock p reg db in Detail reg db' e
           end
       end.

(** One run of the script below the sidebar (lines 133-252). *)
Record PageWidgets := mkPageWidgets {
  g_filter : FilterSpec;
  g_pick : option nat;
  g_pane : PaneWidgets
}.

Definition page (lower : str -> str) (clock : Clock) (g : PageWidgets)
                (db : DB) : result pane :=
  let filtered := listRegulations lower (g_filter g) db in
  selected <- selected_id filtered (g_pick g) ;;
  Ok (right_pane clock (g_pane g) selected db).

(** The databases the script itself can produce from a fresh install:
    the seed, then any number of runs of the detail pane on a loaded
    regulation, whether they end normally or in an exception. *)
Inductive Reachable : DB -> Prop :=
| Reachable_seed : Reachable (seed_if_empty empty_db)
| Reachable_run clock p reg db :
    Reachable db ->
    get_regulation db (Regulation.id reg) = Some reg ->
    Reachable (fst (run_pane clock p reg db)).

(** A regulation with its status blanked: everything an operator cannot
    change. *)
Definition fixed_part (r : Regulation.t) : Regulation.t :=
  Regulation.set_status r None.

(** The action's foreign key is one of the ids [rids]. *)
Definition owned_by (rids : list Z) (a : Action.t) : Prop :=
  exists i, In i rids /\ Action.regulation_id a = Some i.

Definition legal_action_status (a : Action.t) : Prop :=
  exists s, Action.status a = Some s /\ In s ACTION_STATUSES.

Definition legal_regulation_status (r : Regulation.t) : Prop :=
  exists s, Regulation.status r = Some s /\ In s REGULATION_STATUSES.

(** What the script keeps true of its database. *)
Definition well_formed (db : DB) : Prop :=
  Forall completed_iff_done (actions db)
  /\ Forall legal_action_status (actions db)
  /\ NoDup (List.map Action.id (actions db))
  /\ Forall (owned_by (List.map Regulation.id (regulations db))) (actions db)
  /\ Forall legal_regulation_status (regulations db)
  /\ List.map fixed_part (regulations db) = List.map fixed_part [r1; r2; r3]
  /\ regulation_links db = regulation_links seed_db.

(** Widgets for the examples. *)
Definition press_delete : ActionWidgets :=
  mkActionWidgets None None None None None None false true.

Definition pick_planned_and_save : ActionWidgets :=
  mkActionWidgets None None (Some 0%nat) None None None true false.

Definition idle_pane : PaneWidgets :=
  mkPaneWidgets None (fun _ => untouched) (mkAddForm None None None None false).

Definition done_action : Action.t :=
  Action.mk 5 (Some 1) (lit "File report") (Some (lit "Annual"))
            (Some Done) (Some (lit "A. Smith")) (Some (mkdate 2025 7 1))
            (Some (at_time 2025 7 1 9 0 0)).

Definition regulation_zero : Regulation.t :=
  Regulation.mk 0 (lit "Draft circular") (Some (lit "IMO")) None None None
                None None (Some (lit "Open")).

Definition archived_regulation : Regulation.t :=
  Regulation.mk 9 (lit "Old rule") (Some (lit "EU")) None None None
                None None (Some (lit "Archived")).

(** A run of the detail pane of the first seeded regulation in which
    the operator closes the regulation, marks the first action done,
    deletes the second and adds a third; and the database after it. *)
Definition busy_pane : PaneWidgets :=
  mkPaneWidgets (Some 2%nat)
    (fun i => if i =? 1 then tick_done_and_save
              else if i =? 2 then press_delete else untouched)
    submit_assess_retrofit.

Definition after_one_run : DB :=
  fst (run_pane clock0 busy_pane r1 (seed_if_empty empty_db)).

(* ================================================================== *)
(** * Properties *)
(* ================================================================== *)

(** ** Strings *)

Lemma str_eqb_eq (s t : str) : str_eqb s t = true <-> s = t.
Proof.
  revert t; induction s as [|c s IH]; intros [|d t]; simpl;
    try (split; [discriminate | discriminate]); try tauto.
  rewrite andb_true_iff, N.eqb_eq, IH.
  split; [intros [-> ->]; reflexivity | intros E; inversion E; auto].
Qed.

Lemma str_eqb_refl (s : str) : str_eqb s s = true.
Proof. apply str_eqb_eq; reflexivity. Qed.

Lemma opt_str_eqb_eq (x y : option str) : opt_str_eqb x y = true <-> x = y.
Proof.
  destruct x as [s|], y as [t|]; simpl; try (split; congruence).
  rewrite str_eqb_eq; split; congruence.
Qed.

Lemma or_str_some (s : str) : or_str (Some s) [] = s.
Proof. destruct s; reflexivity. Qed.

Lemma startswith_prefix (s sub : str) :
  startswith s sub = true <-> exists post, s = sub ++ post.
Proof.
  revert s; induction sub as [|c sub IH]; intros s; simpl.
  - split; [exists s; reflexivity | reflexivity].
  - destruct s as [|d s].
    + split; [discriminate | intros [post E]; discriminate].
    + rewrite andb_true_iff, N.eqb_eq, IH. split.
      * intros [-> [post ->]]. exists post; reflexivity.
      * intros [post E]. inversion E; subst. split; [reflexivity|].
        exists post; reflexivity.
Qed.

Lemma find_at_range (i : Z) (s sub : str) :
  find_at i s sub = -1 \/ i <= find_at i s sub.
Proof.
  revert i; induction s as [|d s IH]; intros i; simpl.
  - destruct (startswith [] sub); [right; lia | left; reflexivity].
  - destruct (startswith (d :: s) sub); [right; lia|].
    destruct (IH (i + 1)) as [E|E]; [left; exact E | right; lia].
Qed.

Lemma find_at_substring (i : Z) (s sub : str) :
  0 <= i -> (0 <= find_at i s sub <-> Substring sub s).
Proof.
  revert i; induction s as [|d s IH]; intros i Hi; simpl.
  - destruct (startswith [] sub) eqn:E.
    + split; [intros _ | intros _; exact Hi].
      apply startswith_prefix in E. destruct E as [post E].
      exists [], post; exact E.
    + split; [lia|]. intros [pre [post E']]. exfalso.
      destruct pre; simpl in E'.
      * assert (startswith [] sub = true)
          by (apply startswith_prefix; exists post; exact E').
        congruence.
      * discriminate.
  - destruct (startswith (d :: s) sub) eqn:E.
    + split; [intros _ | intros _; exact Hi].
      apply startswith_prefix in E. destruct E as [post E].
      exists [], post; exact E.
    + rewrite (IH (i + 1)) by lia. split.
      * intros [pre [post ->]]. exists (d :: pre), post; reflexivity.
      * intros [pre [post E']]. destruct pre as [|c pre]; simpl in E'.
        -- assert (startswith (d :: s) sub = true)
             by (apply startswith_prefix; exists post; exact E').
           congruence.
        -- inversion E'; subst. exists pre, post; reflexivity.
Qed.

(** [s.find(sub) >= 0] is the substring test. *)
Lemma find_ge0 (s sub : str) :
  (find s sub >=? 0) = true <-> Substring sub s.
Proof.
  unfold find. rewrite Z.geb_le. apply find_at_substring. lia.
Qed.

Lemma substring_nil (s : str) : Substring [] s.
Proof. exists [], s; reflexivity. Qed.

(** ** The filter loop *)

Lemma Selects_filter {A} (P : A -> Prop) (f : A -> bool) (l : list A) :
  (forall x, f x = true <-> P x) -> Selects P l (List.filter f l).
Proof.
  intros Hf. induction l as [|x l IH]; simpl.
  - constructor.
  - destruct (f x) eqn:E.
    + apply Selects_keep; [apply Hf; exact E | exact IH].
    + apply Selects_skip; [rewrite <- Hf; congruence | exact IH].
Qed.

Lemma Selects_fun {A} (P : A -> Prop) (l out out' : list A) :
  Selects P l out -> Selects P l out' -> out = out'.
Proof.
  intros H; revert out'; induction H; intros out' H'; inversion H'; subst;
    try reflexivity; try contradiction.
  - f_equal; auto.
  - auto.
Qed.

Lemma Selects_In {A} (P : A -> Prop) (l out : list A) :
  Selects P l out -> forall x, In x out <-> In x l /\ P x.
Proof.
  induction 1; intros y; simpl.
  - tauto.
  - rewrite IHSelects. split.
    + intros [->|[? ?]]; auto.
    + intros [[->|?] ?]; auto.
  - rewrite IHSelects. split.
    + intros [? ?]; auto.
    + intros [[->|?] ?]; [contradiction | auto].
Qed.

Lemma Selects_all {A} (P : A -> Prop) (l : list A) :
  (forall x, In x l -> P x) -> Selects P l l.
Proof.
  induction l as [|x l IH]; intros H; constructor.
  - apply H; left; reflexivity.
  - apply IH; intros y Hy; apply H; right; exact Hy.
Qed.

Section FilterFacts.
Variable lower : str -> str.

Lemma filter_loop_filter (f : FilterSpec) regs filtered :
  filter_loop lower (lower (or_str (q f) [])) (source f) (status f)
              (category f) regs filtered
  = filtered ++ List.filter (keeps lower f) regs.
Proof.
  revert filtered; induction regs as [|r regs IH]; intros filtered; simpl.
  - rewrite app_nil_r; reflexivity.
  - unfold keeps at 1.
    destruct (truthy _ && negb (text_hit _ _ r)); simpl;
      [apply IH|].
    destruct (negb (str_eqb (source f) All) && _); simpl; [apply IH|].
    destruct (negb (str_eqb (status f) All) && _); simpl; [apply IH|].
    destruct (negb (str_eqb (category f) All) && _); simpl; [apply IH|].
    rewrite IH, <- app_assoc; reflexivity.
Qed.

Lemma listRegulations_filter (f : FilterSpec) (db : DB) :
  listRegulations lower f db = List.filter (keeps lower f) (regulations db).
Proof. unfold listRegulations. apply filter_loop_filter. Qed.

Lemma text_hit_matches (query : str) (r : Regulation.t) :
  text_hit lower (lower query) r = true <-> text_matches lower query r.
Proof.
  unfold text_hit, text_matches.
  rewrite !orb_true_iff, !find_ge0, or_str_some. tauto.
Qed.

Lemma facet_test (want : str) (have : option str) :
  negb (negb (str_eqb want All) && negb (opt_str_eqb have (Some want)))
  = true <-> facet_matches want have.
Proof.
  unfold facet_matches.
  rewrite negb_andb, !negb_involutive, orb_true_iff, str_eqb_eq,
    opt_str_eqb_eq.
  tauto.
Qed.

Lemma text_test (query : str) (r : Regulation.t) :
  negb (truthy (lower query) && negb (text_hit lower (lower query) r))
  = true <-> text_matches lower query r.
Proof.
  rewrite negb_andb, negb_involutive, orb_true_iff, text_hit_matches.
  split; [intros [H|H]; [|exact H] | tauto].
  destruct (lower query) eqn:E; [|discriminate].
  left. rewrite E. apply substring_nil.
Qed.

Lemma keeps_satisfies (f : FilterSpec) (r : Regulation.t) :
  keeps lower f r = true <-> satisfies lower f r.
Proof.
  unfold keeps, satisfies, facets_match.
  rewrite !andb_true_iff, text_test, !facet_test. tauto.
Qed.
End FilterFacts.

Lemma facet_matches_All (have : option str) : facet_matches All have.
Proof. left; reflexivity. Qed.

Lemma empty_query_matches (lower : str -> str) (r : Regulation.t) :
  lower [] = [] -> text_matches lower [] r.
Proof. intros E. left. rewrite E. apply substring_nil. Qed.

(** C1: [listRegulations] returns the loaded regulations that satisfy the
    free-text predicate and the three facet predicates, each kept
    occurrence in its load position and nothing re-ordered; a facet that
    is not the wildcard ["All"] demands equality of code-point sequences
    with the regulation's field; with an empty query and all three
    facets at the wildcard, the loaded list is returned as it is. *)
Theorem listRegulations_selects
    (lower : str -> str) (Hlower : lower [] = [])
    (f : FilterSpec) (db : DB) :
  Selects (satisfies lower f) (regulations db) (listRegulations lower f db)
  /\ listRegulations lower (mkFilter None All All All) db = regulations db
  /\ listRegulations lower (mkFilter (Some []) All All All) db
     = regulations db.
Proof.
  assert (Hsel : forall g,
    Selects (satisfies lower g) (regulations db) (listRegulations lower g db)).
  { intros g. rewrite listRegulations_filter.
    apply Selects_filter. intros r. apply keeps_satisfies. }
  assert (Hall : forall g, or_str (q g) [] = [] ->
    source g = All -> status g = All -> category g = All ->
    listRegulations lower g db = regulations db).
  { intros g Hq Hs Ht Hc.
    apply (Selects_fun (satisfies lower g) (regulations db)); [apply Hsel|].
    apply Selects_all. intros r _. unfold satisfies, facets_match.
    rewrite Hq, Hs, Ht, Hc.
    repeat split; auto using facet_matches_All, empty_query_matches. }
  split; [apply Hsel|].
  split; apply Hall; reflexivity.
Qed.

Lemma listRegulations_selects_witness :
  ascii_lower [] = []
  /\ Selects (satisfies ascii_lower filter_EU) (regulations seed_db)
             (listRegulations ascii_lower filter_EU seed_db)
  /\ listRegulations ascii_lower (mkFilter None All All All) seed_db
     = regulations seed_db
  /\ listRegulations ascii_lower (mkFilter (Some []) All All All) seed_db
     = regulations seed_db.
Proof.
  split; [reflexivity|].
  exact (listRegulations_selects ascii_lower eq_refl filter_EU seed_db).
Defined.

Example filter_source_EU :
  listRegulations ascii_lower filter_EU seed_db = [r1].
Proof. vm_compute. reflexivity. Qed.

Example filter_source_IMO :
  listRegulations ascii_lower filter_IMO seed_db = [r2].
Proof. vm_compute. reflexivity. Qed.

Example filter_source_is_case_sensitive :
  listRegulations ascii_lower (mkFilter None (lit "eu") All All) seed_db = [].
Proof. vm_compute. reflexivity. Qed.

Example filter_text_is_case_insensitive :
  listRegulations ascii_lower (mkFilter (Some (lit "gLoBaL")) All All All)
                  seed_db = [r2].
Proof. vm_compute. reflexivity. Qed.

(** C2: with the facets at the wildcard, a loaded regulation is retained
    exactly when the lower-cased query occurs in the lower-cased title,
    summary or jurisdiction, a missing or empty field counting as the
    empty string; with any facets the text predicate is one conjunct of
    the retention test; an empty (or missing) query leaves only the
    facet predicates. *)
Theorem free_text_query
    (lower : str -> str) (Hlower : lower [] = [])
    (query : option str) (db : DB) :
  (forall r,
      In r (listRegulations lower (mkFilter query All All All) db)
      <-> In r (regulations db) /\ text_matches lower (or_str query []) r)
  /\ (forall src st cat r,
      In r (listRegulations lower (mkFilter query src st cat) db)
      <-> In r (regulations db)
          /\ text_matches lower (or_str query []) r
          /\ facets_match (mkFilter query src st cat) r)
  /\ (forall src st cat,
      Selects (facets_match (mkFilter (Some []) src st cat)) (regulations db)
              (listRegulations lower (mkFilter (Some []) src st cat) db)
      /\ listRegulations lower (mkFilter None src st cat) db
         = listRegulations lower (mkFilter (Some []) src st cat) db).
Proof.
  assert (Hin : forall g r,
    In r (listRegulations lower g db)
    <-> In r (regulations db) /\ satisfies lower g r).
  { intros g r. rewrite listRegulations_filter, filter_In, keeps_satisfies.
    reflexivity. }
  split; [|split].
  - intros r. rewrite Hin. unfold satisfies, facets_match; simpl.
    pose proof facet_matches_All. intuition.
  - intros src st cat r. rewrite Hin. unfold satisfies; simpl. reflexivity.
  - intros src st cat. split.
    + rewrite listRegulations_filter. apply Selects_filter.
      intros r. rewrite keeps_satisfies. unfold satisfies; simpl.
      pose proof (empty_query_matches lower r Hlower). tauto.
    + rewrite !listRegulations_filter. reflexivity.
Qed.

Lemma free_text_query_witness :
  ascii_lower [] = []
  /\ (forall r,
      In r (listRegulations ascii_lower
              (mkFilter (Some (lit "E-NAV")) All All All) seed_db)
      <-> In r (regulations seed_db)
          /\ text_matches ascii_lower (or_str (Some (lit "E-NAV")) []) r).
Proof.
  split; [reflexivity|].
  exact (proj1 (free_text_query ascii_lower eq_refl
                                (Some (lit "E-NAV")) seed_db)).
Defined.

Example query_e_nav :
  listRegulations ascii_lower (mkFilter (Some (lit "E-NAV")) All All All)
                  seed_db = [r3].
Proof. vm_compute. reflexivity. Qed.

Example query_matches_summary_only :
  listRegulations ascii_lower (mkFilter (Some (lit "eiapp")) All All All)
                  seed_db = [r2].
Proof. vm_compute. reflexivity. Qed.

(** ** The stable sort *)

Section SortedFacts.
Context {A K : Type} (key : A -> K) (ltb : K -> K -> bool).
Hypothesis ltb_asym : forall a b, ltb a b = true -> ltb b a = false.
Hypothesis ltb_trans :
  forall a b c, ltb c b = false -> ltb b a = false -> ltb c a = false.

Let le (a b : A) : Prop := ltb (key b) (key a) = false.

Lemma insert_perm (x : A) (l : list A) :
  Permutation (x :: l) (insert key ltb x l).
Proof.
  induction l as [|y l IH]; simpl; [reflexivity|].
  destruct (ltb (key y) (key x)); [|reflexivity].
  rewrite perm_swap. apply perm_skip, IH.
Qed.

Lemma sorted_perm (l : list A) : Permutation l (sorted key ltb l).
Proof.
  induction l as [|x l IH]; simpl; [reflexivity|].
  rewrite <- insert_perm. apply perm_skip, IH.
Qed.

Lemma insert_sorted (x : A) (l : list A) :
  StronglySorted le l -> StronglySorted le (insert key ltb x l).
Proof.
  induction 1 as [|y l Hl IH Hy]; simpl.
  - repeat constructor.
  - destruct (ltb (key y) (key x)) eqn:E.
    + constructor; [exact IH|].
      rewrite <- (insert_perm x l). constructor; [|exact Hy].
      apply ltb_asym; exact E.
    + constructor; [constructor; assumption|].
      constructor; [exact E|].
      eapply Forall_impl; [|exact Hy]. intros z Hz.
      unfold le in *. eapply ltb_trans; eassumption.
Qed.

Lemma sorted_sorted (l : list A) : StronglySorted le (sorted key ltb l).
Proof.
  induction l as [|x l IH]; simpl; [constructor|].
  apply insert_sorted, IH.
Qed.

Lemma sorted_fixpoint (l : list A) :
  StronglySorted le l -> sorted key ltb l = l.
Proof.
  induction 1 as [|x l Hl IH Hx]; simpl; [reflexivity|].
  rewrite IH. destruct l as [|y l]; simpl; [reflexivity|].
  inversion Hx as [|? ? Hxy _]; subst. unfold le in Hxy.
  rewrite Hxy. reflexivity.
Qed.

Lemma sorted_idempotent (l : list A) :
  sorted key ltb (sorted key ltb l) = sorted key ltb l.
Proof. apply sorted_fixpoint, sorted_sorted. Qed.

(** Stability: elements that are pairwise not less than each other
    keep their relative order. *)
Lemma insert_stable (p : A -> bool) (x : A) (l : list A) :
  (forall a b, p a = true -> p b = true -> ltb (key a) (key b) = false) ->
  List.filter p (insert key ltb x l) = List.filter p (x :: l).
Proof.
  intros Hp. induction l as [|y l IH]; simpl; [reflexivity|].
  destruct (ltb (key y) (key x)) eqn:E; [|reflexivity].
  simpl. rewrite IH. simpl.
  destruct (p y) eqn:Py, (p x) eqn:Px; try reflexivity.
  rewrite (Hp y x Py Px) in E. discriminate.
Qed.

Lemma sorted_stable (p : A -> bool) (l : list A) :
  (forall a b, p a = true -> p b = true -> ltb (key a) (key b) = false) ->
  List.filter p (sorted key ltb l) = List.filter p l.
Proof.
  intros Hp. induction l as [|x l IH]; simpl; [reflexivity|].
  rewrite (insert_stable p x _ Hp). simpl. rewrite IH. reflexivity.
Qed.

Lemma sorted_after (pre post : list A) (a : A) :
  StronglySorted le (pre ++ a :: post) -> Forall (le a) post.
Proof.
  induction pre as [|x pre IH]; simpl; intros H; inversion H; subst; auto.
Qed.
End SortedFacts.

(** ** Dates *)

Lemma date_ltb_lt (a b : date) :
  date_ltb a b = true <->
  year a < year b
  \/ (year a = year b
      /\ (month a < month b \/ (month a = month b /\ day a < day b))).
Proof.
  unfold date_ltb.
  rewrite !orb_true_iff, !andb_true_iff, !orb_true_iff, !andb_true_iff,
    !Z.ltb_lt, !Z.eqb_eq.
  tauto.
Qed.

Lemma date_ltb_asym (a b : date) : date_ltb a b = true -> date_ltb b a = false.
Proof.
  intros H. apply date_ltb_lt in H.
  apply not_true_is_false. rewrite date_ltb_lt. lia.
Qed.

Lemma date_ltb_trans (a b c : date) :
  date_ltb c b = false -> date_ltb b a = false -> date_ltb c a = false.
Proof.
  intros H1 H2. apply not_true_iff_false in H1, H2.
  rewrite date_ltb_lt in H1, H2.
  apply not_true_is_false. rewrite date_ltb_lt. lia.
Qed.

Lemma date_eqb_eq (a b : date) : date_eqb a b = true <-> a = b.
Proof.
  unfold date_eqb. rewrite !andb_true_iff, !Z.eqb_eq.
  destruct a, b; simpl. split; [intros [[-> ->] ->]; reflexivity|].
  intros E; inversion E; auto.
Qed.

Lemma date_ltb_irrefl (a : date) : date_ltb a a = false.
Proof. apply not_true_is_false. rewrite date_ltb_lt. lia. Qed.

(** Every date the [date] type admits is at most [date.max]. *)
Lemma date_max_greatest (d : date) :
  date_valid d = true -> date_ltb date_max d = false.
Proof.
  unfold date_valid. rewrite !andb_true_iff, !Z.leb_le.
  intros [[[[[? ?] ?] ?] ?] Hd].
  apply not_true_is_false. rewrite date_ltb_lt. simpl.
  assert (days_in_month (year d) (month d) <= 31).
  { unfold days_in_month.
    destruct (month d =? 2); [destruct (is_leap (year d)); lia|].
    destruct (_ || _); lia. }
  lia.
Qed.

Lemma undated_last_stronger (l : list Action.t) :
  undated_last l -> undated_after_earlier l.
Proof.
  intros H pre a post b E Ha Hb d Hd.
  rewrite (H pre a post b E Ha Hb) in Hd. discriminate.
Qed.

(** C4 (as amended): the display order is a permutation of the actions,
    ascending in the key [due_date or date.max]; actions with the same
    key keep their original relative order; sorting a sorted list changes
    nothing; and after an undated action there is no action dated before
    [date.max]. *)
Theorem display_order_stable_sort (l : list Action.t) :
  Permutation l (display_order l)
  /\ StronglySorted due_le (display_order l)
  /\ (forall d, with_key d (display_order l) = with_key d l)
  /\ display_order (display_order l) = display_order l
  /\ undated_after_earlier (display_order l).
Proof.
  pose proof (sorted_sorted due_key date_ltb date_ltb_asym date_ltb_trans l)
    as Hs.
  split; [apply sorted_perm|].
  split; [exact Hs|].
  split.
  { intros d. unfold with_key, display_order. apply sorted_stable.
    intros a b Ha Hb. apply date_eqb_eq in Ha, Hb.
    rewrite Ha, Hb. apply date_ltb_irrefl. }
  split.
  { apply sorted_idempotent; [exact date_ltb_asym | exact date_ltb_trans]. }
  intros pre a post b E Ha Hb d Hd.
  unfold display_order in E. rewrite E in Hs.
  apply sorted_after in Hs. rewrite Forall_forall in Hs.
  specialize (Hs b Hb). unfold due_le, due_key in Hs.
  rewrite Ha, Hd in Hs. exact Hs.
Qed.

(** C4, counterexample: an action dated [date.max] ties with an undated
    one, so the undated action that was inserted first stays first. *)
Lemma undated_before_max_dated :
  display_order [undated_action; max_dated_action]
  = [undated_action; max_dated_action]
  /\ date_valid date_max = true
  /\ ~ undated_last (display_order [undated_action; max_dated_action]).
Proof.
  split; [reflexivity|].
  split; [reflexivity|].
  intros H.
  specialize (H [] undated_action [max_dated_action] max_dated_action
                eq_refl eq_refl (or_introl eq_refl)).
  discriminate H.
Qed.

Example dated_before_undated :
  display_order [undated_action; crew_circular]
  = [crew_circular; undated_action].
Proof. reflexivity. Qed.

Example seed_display_order :
  List.map Action.id (display_order (reg_actions seed_db r1)) = [1; 2].
Proof. vm_compute. reflexivity. Qed.

(** ** Tables *)

Lemma index_of_In (l : list str) (x : str) :
  In x l -> exists i, index_of l x = Some i.
Proof.
  induction l as [|y l IH]; simpl; [tauto|].
  intros H. destruct (str_eqb y x) eqn:E; [exists O; reflexivity|].
  destruct H as [H|H].
  - subst. rewrite str_eqb_refl in E. discriminate.
  - destruct (IH H) as [i ->]. exists (S i); reflexivity.
Qed.

Lemma index_of_nth (l : list str) (x : str) (i : nat) :
  index_of l x = Some i -> nth i l [] = x /\ (i < List.length l)%nat.
Proof.
  revert i; induction l as [|y l IH]; simpl; intros i; [discriminate|].
  destruct (str_eqb y x) eqn:E.
  - intros [= <-]. apply str_eqb_eq in E. split; [exact E | lia].
  - destruct (index_of l x) as [j|]; simpl; [|discriminate].
    intros [= <-]. destruct (IH j eq_refl). split; [assumption | lia].
Qed.


Lemma selectbox_offered (options : list str) (index : nat)
                        (picked : option nat) :
  (index < List.length options)%nat ->
  In (st.selectbox options index picked) options.
Proof.
  intros Hi. unfold st.selectbox. apply nth_In.
  destruct picked as [i|]; [|exact Hi].
  destruct (Nat.ltb i (List.length options)) eqn:E; [|exact Hi].
  apply Nat.ltb_lt; exact E.
Qed.

Lemma get_action_commit (db : DB) (a a' : Action.t) :
  In a (actions db) -> Action.id a' = Action.id a ->
  get_action (commit_action db a') (Action.id a) = Some a'.
Proof.
  unfold get_action, commit_action; simpl. intros Hin Hid.
  induction (actions db) as [|x l IH]; simpl; [contradiction|].
  rewrite Hid. destruct (Action.id x =? Action.id a) eqn:E; simpl.
  - rewrite Hid, Z.eqb_refl. reflexivity.
  - rewrite E. rewrite Hid in IH. apply IH.
    destruct Hin as [->|H]; [|exact H].
    rewrite Z.eqb_refl in E. discriminate.
Qed.

Lemma get_regulation_commit (db : DB) (reg reg' : Regulation.t) :
  get_regulation db (Regulation.id reg) = Some reg ->
  Regulation.id reg' = Regulation.id reg ->
  get_regulation (commit_regulation db reg') (Regulation.id reg) = Some reg'.
Proof.
  unfold get_regulation, commit_regulation; simpl. intros Hget Hid.
  induction (regulations db) as [|x l IH]; simpl in *; [discriminate|].
  rewrite Hid. destruct (Regulation.id x =? Regulation.id reg) eqn:E; simpl.
  - rewrite Hid, Z.eqb_refl. reflexivity.
  - rewrite E. rewrite Hid in IH. apply IH. exact Hget.
Qed.

(** ** The action editor *)

Lemma action_block_runs (clock : Clock) (w : ActionWidgets)
                        (a : Action.t) (db : DB) :
  status_offered a ->
  action_block clock w a db
  = Ok (let db1 := if w_save w then commit_action db (edited clock a w)
                   else db in
        if w_delete w then delete_action db1 a else db1).
Proof.
  intros H. apply index_of_In in H. destruct H as [idx E].
  unfold action_block, edited, supplied_status, done_flag, list_index.
  rewrite E. reflexivity.
Qed.

Lemma action_block_saves (clock : Clock) (w : ActionWidgets)
                         (a : Action.t) (db : DB) :
  status_offered a -> w_save w = true -> w_delete w = false ->
  action_block clock w a db = Ok (commit_action db (edited clock a w)).
Proof.
  intros H Hs Hd. rewrite (action_block_runs clock w a db H), Hs, Hd.
  reflexivity.
Qed.


Lemma edited_completed_iff_done (clock : Clock) (a : Action.t)
                                (w : ActionWidgets) :
  completed_iff_done (edited clock a w).
Proof.
  unfold completed_iff_done, edited, save_action; simpl.
  destruct (str_eqb _ Done) eqn:E.
  - apply str_eqb_eq in E. rewrite E. split; [reflexivity | discriminate].
  - split; [congruence|]. intros [= H]. rewrite H, str_eqb_refl in E.
    discriminate.
Qed.

(** C3: pressing "Save" in an action's expander stores an action whose
    [completed_at] is the current time when the resulting status is
    ["Done"] and is cleared for every other resulting status, so that on
    the stored action [completed_at] is set exactly when the status is
    ["Done"]; every other action of the table is left as it was. *)
Theorem save_completed_at
    (clock : Clock) (w : ActionWidgets) (a : Action.t) (db : DB)
    (Hin : In a (actions db)) (Hoffered : status_offered a)
    (Hsave : w_save w = true) (Hdelete : w_delete w = false) :
  exists db' a',
    action_block clock w a db = Ok db'
    /\ get_action db' (Action.id a) = Some a'
    /\ (Action.status a' = Some Done ->
        Action.completed_at a' = Some (utcnow clock))
    /\ (Action.status a' <> Some Done -> Action.completed_at a' = None)
    /\ completed_iff_done a'
    /\ (Forall completed_iff_done (actions db) ->
        Forall completed_iff_done (actions db')).
Proof.
  exists (commit_action db (edited clock a w)), (edited clock a w).
  split; [apply action_block_saves; assumption|].
  split; [apply get_action_commit; [exact Hin | reflexivity]|].
  split; [|split; [|split; [apply edited_completed_iff_done|]]].
  - unfold edited, save_action; simpl. intros [= ->].
    rewrite str_eqb_refl. reflexivity.
  - unfold edited, save_action; simpl. intros H.
    destruct (str_eqb _ Done) eqn:E; [|reflexivity].
    apply str_eqb_eq in E. rewrite E in H. contradiction.
  - intros Hinv. unfold commit_action; simpl.
    rewrite Forall_forall in *. intros x Hx.
    apply in_map_iff in Hx. destruct Hx as [y [<- Hy]].
    destruct (Action.id y =? _); [apply edited_completed_iff_done|].
    apply Hinv; exact Hy.
Qed.

Lemma save_completed_at_witness :
  exists db' a',
    action_block clock0 tick_done_and_save seed_a1 seed_db = Ok db'
    /\ get_action db' (Action.id seed_a1) = Some a'
    /\ (Action.status a' = Some Done ->
        Action.completed_at a' = Some (utcnow clock0))
    /\ (Action.status a' <> Some Done -> Action.completed_at a' = None)
    /\ completed_iff_done a'
    /\ (Forall completed_iff_done (actions seed_db) ->
        Forall completed_iff_done (actions db')).
Proof.
  refine (save_completed_at clock0 tick_done_and_save seed_a1 seed_db
            _ _ eq_refl eq_refl).
  - left; reflexivity.
  - right; left; reflexivity.
Defined.

Example mark_done_sets_completed_at :
  option_map (fun db => option_map
     (fun a => (Action.status a, Action.completed_at a)) (get_action db 1))
     (match action_block clock0 tick_done_and_save seed_a1 seed_db with
      | Ok db => Some db | Raise _ => None end)
  = Some (Some (Some Done, Some (utcnow clock0))).
Proof. vm_compute. reflexivity. Qed.

Example plain_save_clears_completed_at :
  option_map (fun db => option_map
     (fun a => (Action.status a, Action.completed_at a)) (get_action db 1))
     (match action_block clock0 press_save seed_a1 seed_db with
      | Ok db => Some db | Raise _ => None end)
  = Some (Some (Some (lit "In Progress"), None)).
Proof. vm_compute. reflexivity. Qed.

(** C8: on "Save" the "Mark done" check box overrides the status select
    box: with the box ticked the stored status is ["Done"] whatever the
    select box holds, with the box unticked it is the value of the
    select box. *)
Theorem done_overrides_status
    (clock : Clock) (w : ActionWidgets) (a : Action.t) (db : DB)
    (Hin : In a (actions db)) (Hoffered : status_offered a)
    (Hsave : w_save w = true) (Hdelete : w_delete w = false) :
  exists db' a',
    action_block clock w a db = Ok db'
    /\ get_action db' (Action.id a) = Some a'
    /\ (done_flag a w = true -> Action.status a' = Some Done)
    /\ (done_flag a w = false ->
        Action.status a' = Some (supplied_status a w))
    /\ In (supplied_status a w) ACTION_STATUSES.
Proof.
  exists (commit_action db (edited clock a w)), (edited clock a w).
  split; [apply action_block_saves; assumption|].
  split; [apply get_action_commit; [exact Hin | reflexivity]|].
  split; [unfold edited, save_action; simpl; intros ->; reflexivity|].
  split; [unfold edited, save_action; simpl; intros ->; reflexivity|].
  unfold supplied_status.
  destruct (index_of_In _ _ Hoffered) as [idx E]. rewrite E.
  apply selectbox_offered. apply (index_of_nth _ _ _ E).
Qed.

Lemma done_overrides_status_witness :
  exists db' a',
    action_block clock0 tick_done_and_save seed_a1 seed_db = Ok db'
    /\ get_action db' (Action.id seed_a1) = Some a'
    /\ (done_flag seed_a1 tick_done_and_save = true ->
        Action.status a' = Some Done)
    /\ (done_flag seed_a1 tick_done_and_save = false ->
        Action.status a' = Some (supplied_status seed_a1 tick_done_and_save))
    /\ In (supplied_status seed_a1 tick_done_and_save) ACTION_STATUSES.
Proof.
  refine (done_overrides_status clock0 tick_done_and_save seed_a1 seed_db
            _ _ eq_refl eq_refl).
  - left; reflexivity.
  - right; left; reflexivity.
Defined.

Example ticked_box_beats_select_box :
  done_flag seed_a1 tick_done_and_save = true
  /\ supplied_status seed_a1 tick_done_and_save = lit "In Progress"
  /\ Action.status (edited clock0 seed_a1 tick_done_and_save) = Some Done.
Proof. vm_compute. auto. Qed.

(** ** The add-action form *)

Lemma add_action_inserts (clock : Clock) (f : AddForm)
                         (reg : Regulation.t) (db : DB) :
  f_submitted f = true ->
  add_action clock f reg db = Ok (insert_action db (new_a clock f reg)).
Proof. intros H. unfold add_action. rewrite H. reflexivity. Qed.

Lemma reg_actions_insert (db : DB) (reg : Regulation.t)
                         (k : Action.kwargs) :
  Action.k_regulation_id k = Some (Regulation.id reg) ->
  reg_actions (insert_action db k) reg
  = reg_actions db reg
      ++ [Action.row (fresh_id (List.map Action.id (actions db))) k].
Proof.
  intros H. unfold reg_actions, insert_action; simpl.
  rewrite filter_app; simpl. rewrite H; simpl.
  rewrite Z.eqb_refl. reflexivity.
Qed.

Lemma date_input_none (value : date) (entered : option (option date)) :
  st.date_input value entered = None <-> entered = Some None.
Proof.
  unfold st.date_input.
  destruct entered as [[d|]|]; [destruct (st.date_in_range value d)| |];
    split; intros H; try discriminate H; reflexivity.
Qed.

(** C9 (as amended): "Save" stores the value of the date widget, whose
    default is the action's due date or, when it has none, today's
    date, and the add form passes the value of its date widget, whose
    default is today's date.  Unless the operator has cleared the
    field, the stored due date is not NULL, and an undated action
    saved with the widget at its default is dated today; with the field
    cleared, NULL is stored. *)
Theorem due_date_is_widget_value
    (clock : Clock) (w : ActionWidgets) (a : Action.t)
    (f : AddForm) (reg : Regulation.t) (db : DB)
    (Hsubmitted : f_submitted f = true) :
  (In a (actions db) -> status_offered a ->
   w_save w = true -> w_delete w = false ->
   exists db' a',
     action_block clock w a db = Ok db'
     /\ get_action db' (Action.id a) = Some a'
     /\ Action.due_date a'
        = st.date_input (or_date (Action.due_date a) (today clock)) (w_due w)
     /\ (w_due w <> Some None -> Action.due_date a' <> None)
     /\ (w_due w = Some None -> Action.due_date a' = None)
     /\ (Action.due_date a = None -> w_due w = None ->
         Action.due_date a' = Some (today clock)))
  /\ (exists db' a',
      add_action clock f reg db = Ok db'
      /\ actions db' = actions db ++ [a']
      /\ Action.due_date a' = st.date_input (today clock) (f_due f)
      /\ (f_due f <> Some None -> Action.due_date a' <> None)
      /\ (f_due f = Some None -> Action.due_date a' = None)
      /\ (f_due f = None -> Action.due_date a' = Some (today clock))).
Proof.
  split.
  - intros Hin Hoffered Hsave Hdelete.
    exists (commit_action db (edited clock a w)), (edited clock a w).
    split; [apply action_block_saves; assumption|].
    split; [apply get_action_commit; [exact Hin | reflexivity]|].
    change (Action.due_date (edited clock a w))
      with (st.date_input (or_date (Action.due_date a) (today clock))
                          (w_due w)).
    split; [reflexivity|].
    split; [intros H E; apply H; apply date_input_none in E; exact E|].
    split; [intros H; apply date_input_none; exact H|].
    intros Ha Hw. rewrite Ha, Hw. reflexivity.
  - eexists. eexists.
    split; [apply add_action_inserts; exact Hsubmitted|].
    split; [reflexivity|].
    change (Action.due_date
              (Action.row (fresh_id (List.map Action.id (actions db)))
                          (new_a clock f reg)))
      with (st.date_input (today clock) (f_due f)).
    split; [reflexivity|].
    split; [intros H E; apply H; apply date_input_none in E; exact E|].
    split; [intros H; apply date_input_none; exact H|].
    intros Hf. rewrite Hf. reflexivity.
Qed.

Lemma due_date_is_widget_value_witness :
  exists db' a',
    action_block clock0 press_save undated_action
                 (mkDB [r1] [] [undated_action]) = Ok db'
    /\ get_action db' (Action.id undated_action) = Some a'
    /\ Action.due_date a' = Some (today clock0).
Proof.
  destruct (proj1 (due_date_is_widget_value clock0 press_save undated_action
                     submit_defaults r1 (mkDB [r1] [] [undated_action])
                     eq_refl)
              (or_introl eq_refl) (or_introl eq_refl) eq_refl eq_refl)
    as [db' [a' [H1 [H2 [_ [_ [_ H6]]]]]]].
  exists db', a'. split; [exact H1|]. split; [exact H2|].
  exact (H6 eq_refl eq_refl).
Defined.

(** C9, counterexample: with the due-date field cleared, "Save" on the
    first seeded action, which is due on 2025-08-20, stores NULL, and
    "Add" with the field cleared creates an action without a due
    date. *)
Lemma cleared_due_date_is_stored :
  Action.due_date seed_a1 = Some (mkdate 2025 8 20)
  /\ (exists db' a',
        action_block clock0 clear_due_and_save seed_a1 seed_db = Ok db'
        /\ get_action db' 1 = Some a' /\ Action.due_date a' = None)
  /\ (exists db' a',
        add_action clock0 submit_cleared_due r2 seed_db = Ok db'
        /\ get_action db' 4 = Some a' /\ Action.due_date a' = None).
Proof.
  split; [reflexivity|].
  split; eexists; eexists; (split; [vm_compute; reflexivity|]);
    split; vm_compute; reflexivity.
Qed.

Example out_of_range_date_is_discarded :
  st.date_input (mkdate 2025 8 20) (Some (Some (mkdate 2040 1 1)))
  = Some (mkdate 2025 8 20)
  /\ st.date_input (mkdate 2025 8 20) (Some (Some (mkdate 2035 8 20)))
     = Some (mkdate 2035 8 20)
  /\ st.date_input (mkdate 2025 8 20) (Some (Some (mkdate 2015 8 19)))
     = Some (mkdate 2025 8 20).
Proof. vm_compute. auto. Qed.

Example undated_action_gets_today :
  Action.due_date (edited clock0 undated_action press_save)
  = Some (mkdate 2025 8 1).
Proof. reflexivity. Qed.

(** C7: the add form never passes a status; the created action has
    status ["Planned"], no [completed_at], the title, description,
    assignee and due date of the form, and the regulation's id as its
    foreign key, so that it is the last of the regulation's actions. *)
Theorem add_action_defaults
    (clock : Clock) (f : AddForm) (reg : Regulation.t) (db : DB)
    (Hsubmitted : f_submitted f = true) :
  exists db' a',
    add_action clock f reg db = Ok db'
    /\ actions db' = actions db ++ [a']
    /\ reg_actions db' reg = reg_actions db reg ++ [a']
    /\ Action.status a' = Some (lit "Planned")
    /\ Action.completed_at a' = None
    /\ Action.title a' = st.text_input (lit "New action") (f_title f)
    /\ Action.description a' = Some (st.text_area [] (f_desc f))
    /\ Action.assignee a' = Some (st.text_input [] (f_assignee f))
    /\ Action.due_date a' = st.date_input (today clock) (f_due f)
    /\ Action.regulation_id a' = Some (Regulation.id reg).
Proof.
  eexists. eexists.
  split; [apply add_action_inserts; exact Hsubmitted|].
  split; [reflexivity|].
  split; [apply reg_actions_insert; reflexivity|].
  repeat split; reflexivity.
Qed.

Lemma add_action_defaults_witness :
  exists db' a',
    add_action clock0 submit_assess_retrofit r2 seed_db = Ok db'
    /\ actions db' = actions seed_db ++ [a']
    /\ reg_actions db' r2 = reg_actions seed_db r2 ++ [a']
    /\ Action.status a' = Some (lit "Planned")
    /\ Action.completed_at a' = None
    /\ Action.title a'
       = st.text_input (lit "New action") (f_title submit_assess_retrofit)
    /\ Action.description a'
       = Some (st.text_area [] (f_desc submit_assess_retrofit))
    /\ Action.assignee a'
       = Some (st.text_input [] (f_assignee submit_assess_retrofit))
    /\ Action.due_date a'
       = st.date_input (today clock0) (f_due submit_assess_retrofit)
    /\ Action.regulation_id a' = Some (Regulation.id r2).
Proof.
  exact (add_action_defaults clock0 submit_assess_retrofit r2 seed_db
           eq_refl).
Defined.

Example add_assess_retrofit :
  add_action clock0 submit_assess_retrofit r2 seed_db
  = Ok (mkDB (regulations seed_db) (regulation_links seed_db)
          (actions seed_db
             ++ [Action.mk 4 (Some 2) (lit "Assess retrofit") (Some [])
                   (Some (lit "Planned")) (Some [])
                   (Some (mkdate 2025 8 1)) None])).
Proof. vm_compute. reflexivity. Qed.

(** C6 (as amended): an empty title is accepted: "Save" with the title
    box emptied and "Add" with an empty title both succeed and store the
    empty title; the script has no title validation. *)
Theorem empty_title_accepted
    (clock : Clock) (w : ActionWidgets) (a : Action.t)
    (f : AddForm) (reg : Regulation.t) (db : DB)
    (Hin : In a (actions db)) (Hoffered : status_offered a)
    (Hsave : w_save w = true) (Hdelete : w_delete w = false)
    (Hsubmitted : f_submitted f = true)
    (Hwtitle : w_title w = Some []) (Hftitle : f_title f = Some []) :
  (exists db' a',
      action_block clock w a db = Ok db'
      /\ get_action db' (Action.id a) = Some a'
      /\ Action.title a' = [])
  /\ (exists db' a',
      add_action clock f reg db = Ok db'
      /\ actions db' = actions db ++ [a']
      /\ Action.title a' = []).
Proof.
  split.
  - exists (commit_action db (edited clock a w)), (edited clock a w).
    split; [apply action_block_saves; assumption|].
    split; [apply get_action_commit; [exact Hin | reflexivity]|].
    unfold edited, save_action; simpl. rewrite Hwtitle. reflexivity.
  - eexists. eexists.
    split; [apply add_action_inserts; exact Hsubmitted|].
    split; [reflexivity|].
    simpl. rewrite Hftitle. reflexivity.
Qed.

Lemma empty_title_accepted_witness :
  (exists db' a',
      action_block clock0 clear_title_and_save seed_a1 seed_db = Ok db'
      /\ get_action db' (Action.id seed_a1) = Some a'
      /\ Action.title a' = [])
  /\ (exists db' a',
      add_action clock0 submit_empty_title r2 seed_db = Ok db'
      /\ actions db' = actions seed_db ++ [a']
      /\ Action.title a' = []).
Proof.
  refine (empty_title_accepted clock0 clear_title_and_save seed_a1
            submit_empty_title r2 seed_db _ _
            eq_refl eq_refl eq_refl eq_refl eq_refl).
  - left; reflexivity.
  - right; left; reflexivity.
Defined.

(** C6, counterexample: on the seeded database, "Add" with an empty
    title and "Save" with the title box emptied do not fail, and the
    action with the empty title is in the table afterwards. *)
Lemma empty_title_not_rejected :
  ~ failed (add_action clock0 submit_empty_title r2 seed_db)
  /\ ~ failed (action_block clock0 clear_title_and_save seed_a1 seed_db)
  /\ (exists db' a',
        add_action clock0 submit_empty_title r2 seed_db = Ok db'
        /\ get_action db' 4 = Some a' /\ Action.title a' = [])
  /\ (exists db' a',
        action_block clock0 clear_title_and_save seed_a1 seed_db = Ok db'
        /\ get_action db' 1 = Some a' /\ Action.title a' = []).
Proof.
  split; [vm_compute; tauto|].
  split; [vm_compute; tauto|].
  split; eexists; eexists; (split; [vm_compute; reflexivity|]);
    split; vm_compute; reflexivity.
Qed.

(** ** Regulation status *)

Lemma update_status_stores (v : str) (reg : Regulation.t) (db : DB) :
  get_regulation db (Regulation.id reg) = Some reg ->
  exists reg',
    get_regulation (update_status v reg db) (Regulation.id reg) = Some reg'
    /\ Regulation.status reg' = Some v
    /\ Regulation.id reg' = Regulation.id reg
    /\ Regulation.title reg' = Regulation.title reg.
Proof.
  intros Hget. unfold update_status.
  destruct (opt_str_eqb (Some v) (Regulation.status reg)) eqn:E; simpl.
  - exists reg. apply opt_str_eqb_eq in E. auto.
  - exists (Regulation.set_status reg (Some v)).
    split; [apply get_regulation_commit; [exact Hget | reflexivity]|].
    auto.
Qed.

Lemma update_status_tables (v : str) (reg : Regulation.t) (db : DB) :
  actions (update_status v reg db) = actions db
  /\ regulation_links (update_status v reg db) = regulation_links db.
Proof.
  unfold update_status. destruct (negb _); split; reflexivity.
Qed.

Lemma status_block_raises (picked : option nat) (reg : Regulation.t)
                          (db : DB) :
  ~ regulation_status_offered reg ->
  status_block picked reg db = Raise ValueError.
Proof.
  intros H. unfold status_block, list_index.
  destruct (index_of REGULATION_STATUSES _) as [i|] eqn:E; [|reflexivity].
  exfalso. apply H. unfold regulation_status_offered.
  destruct (index_of_nth _ _ _ E) as [<- Hi]. apply nth_In; exact Hi.
Qed.




Example close_r2 :
  option_map (fun db => option_map Regulation.status (get_regulation db 2))
    (match status_block (Some 2%nat) r2 seed_db with
     | Ok db => Some db | Raise _ => None end)
  = Some (Some (Some (lit "Closed"))).
Proof. vm_compute. reflexivity. Qed.

Example select_box_at_stored_status_is_noop :
  status_block None r2 seed_db = Ok seed_db.
Proof. vm_compute. reflexivity. Qed.

(** ** Selection labels *)

Lemma uint_codes_inj (u v : Decimal.uint) :
  uint_codes u = uint_codes v -> u = v.
Proof.
  revert v; induction u; destruct v; simpl; intros H;
    try discriminate H; try reflexivity;
    injection H as H; f_equal; auto.
Qed.

Lemma uint_codes_digits (u : Decimal.uint) :
  Forall (fun c => (48 <= c <= 57)%N) (uint_codes u).
Proof. induction u; simpl; constructor; auto; lia. Qed.

Lemma str_of_int_inj (i j : Z) : str_of_int i = str_of_int j -> i = j.
Proof.
  unfold str_of_int. intros H. apply DecimalZ.to_int_inj.
  destruct (Z.to_int i) as [u|u], (Z.to_int j) as [v|v].
  - f_equal. apply uint_codes_inj; exact H.
  - exfalso. pose proof (uint_codes_digits u) as D. rewrite H in D.
    inversion D; subst. lia.
  - exfalso. pose proof (uint_codes_digits v) as D. rewrite <- H in D.
    inversion D; subst. lia.
  - f_equal. injection H as H. apply uint_codes_inj; exact H.
Qed.

Lemma str_of_int_no_space (i : Z) : ~ In 32%N (str_of_int i).
Proof.
  unfold str_of_int. intros H.
  destruct (Z.to_int i) as [u|u]; [|destruct H as [H|H]; [discriminate H|]];
    pose proof (uint_codes_digits u) as D; rewrite Forall_forall in D;
    specialize (D _ H); lia.
Qed.

Lemma split_at_first (c : char) (l1 l2 t1 t2 : str) :
  ~ In c l1 -> ~ In c l2 -> l1 ++ c :: t1 = l2 ++ c :: t2 -> l1 = l2.
Proof.
  revert l2; induction l1 as [|x l1 IH]; intros [|y l2] H1 H2 E;
    simpl in *; try reflexivity.
  - injection E as E _. exfalso; apply H2; left; auto.
  - injection E as E _. exfalso; apply H1; left; auto.
  - injection E as -> E. f_equal. apply IH; auto.
Qed.

(** The id can be read back from a label. *)
Lemma label_inj (r r' : Regulation.t) :
  label r = label r' -> Regulation.id r = Regulation.id r'.
Proof.
  unfold label, dash. simpl. intros [= H].
  apply str_of_int_inj.
  eapply split_at_first; [apply str_of_int_no_space ..| exact H].
Qed.

Lemma label_not_none (r : Regulation.t) : str_eqb (label r) none_label = false.
Proof. reflexivity. Qed.

Lemma index_of_titles (l : list Regulation.t) (i : nat) (r : Regulation.t) :
  NoDup (List.map Regulation.id l) -> nth_error l i = Some r ->
  index_of (titles l) (label r) = Some i.
Proof.
  unfold titles.
  revert i; induction l as [|x l IH]; intros i Hnd Hi.
  - destruct i; discriminate.
  - inversion Hnd as [|? ? Hx Hl]; subst.
    change (List.map label (x :: l)) with (label x :: List.map label l).
    cbn [index_of].
    destruct i as [|i]; cbn [nth_error] in Hi.
    + injection Hi as ->. rewrite str_eqb_refl. reflexivity.
    + destruct (str_eqb (label x) (label r)) eqn:E.
      * exfalso. apply str_eqb_eq, label_inj in E. apply Hx.
        rewrite E. apply in_map. eapply nth_error_In; exact Hi.
      * rewrite (IH i Hl Hi). reflexivity.
Qed.

Lemma NoDup_map_filter {A B} (g : A -> B) (p : A -> bool) (l : list A) :
  NoDup (List.map g l) -> NoDup (List.map g (List.filter p l)).
Proof.
  induction l as [|x l IH]; simpl; intros H; [constructor|].
  inversion H as [|? ? Hx Hl]; subst.
  destruct (p x); simpl; [|auto].
  constructor; [|auto]. intros Hin. apply Hx.
  apply in_map_iff in Hin. destruct Hin as [y [E Hy]].
  apply filter_In in Hy. rewrite <- E. apply in_map. tauto.
Qed.

Lemma get_regulation_In (db : DB) (r : Regulation.t) :
  NoDup (List.map Regulation.id (regulations db)) ->
  In r (regulations db) -> get_regulation db (Regulation.id r) = Some r.
Proof.
  unfold get_regulation. induction (regulations db) as [|x l IH]; simpl;
    intros Hnd Hin; [contradiction|].
  inversion Hnd as [|? ? Hx Hl]; subst.
  destruct Hin as [->|Hin]; [rewrite Z.eqb_refl; reflexivity|].
  destruct (Regulation.id x =? Regulation.id r) eqn:E; [|auto].
  exfalso. apply Z.eqb_eq in E. apply Hx. rewrite E. apply in_map; exact Hin.
Qed.

Lemma selected_id_pick (l : list Regulation.t) (i : nat) (r : Regulation.t) :
  NoDup (List.map Regulation.id l) -> nth_error l i = Some r ->
  selected_id l (Some (S i)) = Ok (Some (Regulation.id r)).
Proof.
  intros Hnd Hi. unfold selected_id, st.selectbox.
  assert (Hlen : (i < List.length l)%nat)
    by (apply nth_error_Some; congruence).
  replace (Nat.ltb (S i) (List.length (none_label :: titles l))) with true.
  2:{ symmetry. apply Nat.ltb_lt. simpl. unfold titles.
      rewrite length_map. lia. }
  assert (Hn : nth (S i) (none_label :: titles l) [] = label r).
  { simpl. unfold titles.
    rewrite (nth_indep _ [] (label r)) by (rewrite length_map; exact Hlen).
    rewrite map_nth. f_equal. apply nth_error_nth; exact Hi. }
  rewrite Hn, label_not_none. simpl.
  unfold list_index. rewrite (index_of_titles l i r Hnd Hi). simpl.
  unfold ids. rewrite nth_error_map, Hi. reflexivity.
Qed.

(** C10: the label of the [i]-th regulation of the filtered list is
    ["#"], the decimal id, [" — "] and the first 80 code points of the
    title (the whole title when it has at most 80); the regulation keeps
    its complete title, of which the label shows a prefix, and the
    detail pane prints it in full; with ids that are a primary key,
    picking the label selects the regulation's id, and the regulation
    loaded under that id is the one with the complete title. *)
Theorem label_truncates_title
    (lower : str -> str) (f : FilterSpec) (db : DB)
    (i : nat) (r : Regulation.t)
    (Hi : nth_error (listRegulations lower f db) i = Some r) :
  nth_error (titles (listRegulations lower f db)) i
  = Some (lit "#" ++ str_of_int (Regulation.id r) ++ [32; 8212; 32]%N
            ++ firstn 80 (Regulation.title r))
  /\ List.length (firstn 80 (Regulation.title r))
     = Nat.min 80 (List.length (Regulation.title r))
  /\ ((List.length (Regulation.title r) <= 80)%nat ->
      firstn 80 (Regulation.title r) = Regulation.title r)
  /\ Regulation.title r
     = firstn 80 (Regulation.title r) ++ skipn 80 (Regulation.title r)
  /\ detail_heading r = lit "### " ++ Regulation.title r
  /\ (NoDup (List.map Regulation.id (regulations db)) ->
      selected_id (listRegulations lower f db) (Some (S i))
      = Ok (Some (Regulation.id r))
      /\ get_regulation db (Regulation.id r) = Some r).
Proof.
  split; [unfold titles; rewrite nth_error_map, Hi; reflexivity|].
  split; [apply length_firstn|].
  split; [intros H; apply firstn_all2; exact H|].
  split; [symmetry; apply firstn_skipn|].
  split; [reflexivity|].
  intros Hkey. split.
  - apply selected_id_pick; [|exact Hi].
    rewrite listRegulations_filter. apply NoDup_map_filter; exact Hkey.
  - apply get_regulation_In; [exact Hkey|].
    apply nth_error_In in Hi. rewrite listRegulations_filter in Hi.
    apply filter_In in Hi. tauto.
Qed.

Lemma label_truncates_title_witness :
  NoDup (List.map Regulation.id (regulations seed_db))
  /\ nth_error (titles (listRegulations ascii_lower filter_EU seed_db)) 0
     = Some (lit "#" ++ str_of_int (Regulation.id r1) ++ [32; 8212; 32]%N
               ++ firstn 80 (Regulation.title r1))
  /\ List.length (firstn 80 (Regulation.title r1))
     = Nat.min 80 (List.length (Regulation.title r1))
  /\ ((List.length (Regulation.title r1) <= 80)%nat ->
      firstn 80 (Regulation.title r1) = Regulation.title r1)
  /\ Regulation.title r1
     = firstn 80 (Regulation.title r1) ++ skipn 80 (Regulation.title r1)
  /\ detail_heading r1 = lit "### " ++ Regulation.title r1
  /\ (NoDup (List.map Regulation.id (regulations seed_db)) ->
      selected_id (listRegulations ascii_lower filter_EU seed_db)
                  (Some 1%nat)
      = Ok (Some (Regulation.id r1))
      /\ get_regulation seed_db (Regulation.id r1) = Some r1).
Proof.
  split.
  - repeat constructor; simpl; lia.
  - refine (label_truncates_title ascii_lower filter_EU seed_db 0 r1 _).
    vm_compute. reflexivity.
Defined.

Example label_r1 :
  label r1 = lit "#1" ++ [32; 8212; 32]%N ++ lit "EU MRV 2025 Amendments".
Proof. vm_compute. reflexivity. Qed.

Example label_long_title :
  label long_title_regulation
  = lit "#7" ++ [32; 8212; 32]%N ++ List.repeat 120%N 80
  /\ List.length (Regulation.title long_title_regulation) = 100%nat.
Proof. split; vm_compute; reflexivity. Qed.

(** ** The invariant of the action table *)

Lemma action_block_invariant (clock : Clock) (w : ActionWidgets)
                             (a : Action.t) (db db' : DB) :
  Forall completed_iff_done (actions db) ->
  action_block clock w a db = Ok db' ->
  Forall completed_iff_done (actions db').
Proof.
  intros Hinv. unfold action_block, list_index.
  destruct (index_of ACTION_STATUSES _) as [idx|] eqn:E; simpl;
    [|discriminate].
  intros [= <-].
  assert (H1 : Forall completed_iff_done
                 (actions (commit_action db (edited clock a w)))).
  { unfold commit_action; simpl. rewrite Forall_forall in *.
    intros x Hx. apply in_map_iff in Hx. destruct Hx as [y [<- Hy]].
    destruct (Action.id y =? _); [apply edited_completed_iff_done | auto]. }
  unfold edited, supplied_status, done_flag in H1. rewrite E in H1.
  destruct (w_save w), (w_delete w); simpl; auto;
    rewrite Forall_forall in *; intros x Hx;
    apply filter_In in Hx; destruct Hx as [Hx _]; auto.
Qed.

Lemma actions_pane_invariant (clock : Clock) (w : Z -> ActionWidgets)
                             (reg : Regulation.t) (db db' : DB) :
  Forall completed_iff_done (actions db) ->
  actions_pane clock w reg db = Ok db' ->
  Forall completed_iff_done (actions db').
Proof.
  unfold actions_pane. generalize (display_order (reg_actions db reg)).
  intros l; revert db. induction l as [|a l IH]; simpl; intros db Hinv.
  - intros [= <-]. exact Hinv.
  - destruct (action_block clock (w (Action.id a)) a db) as [db1|e] eqn:E.
    + apply IH. eapply action_block_invariant; eassumption.
    + clear. induction l as [|b l IHl]; simpl; [discriminate | exact IHl].
Qed.

Lemma add_action_invariant (clock : Clock) (f : AddForm)
                           (reg : Regulation.t) (db db' : DB) :
  Forall completed_iff_done (actions db) ->
  add_action clock f reg db = Ok db' ->
  Forall completed_iff_done (actions db').
Proof.
  intros Hinv. unfold add_action.
  destruct (f_submitted f); intros [= <-]; [|exact Hinv].
  simpl. apply Forall_app. split; [exact Hinv|].
  constructor; [|constructor].
  unfold completed_iff_done; simpl. split; [congruence | discriminate].
Qed.

(** Whatever the operator does in one run of the detail pane, an action
    table in which [completed_at] is set exactly on the "Done" actions
    stays so. *)
Lemma detail_pane_invariant (clock : Clock) (p : PaneWidgets)
                            (reg : Regulation.t) (db db' : DB) :
  Forall completed_iff_done (actions db) ->
  detail_pane clock p reg db = Ok db' ->
  Forall completed_iff_done (actions db').
Proof.
  intros Hinv. unfold detail_pane.
  destruct (status_block (p_status p) reg db) as [db1|e] eqn:E1; simpl;
    [|discriminate].
  destruct (actions_pane clock (p_actions p) reg db1) as [db2|e] eqn:E2;
    simpl; [|discriminate].
  intros H3. eapply add_action_invariant; [|exact H3].
  eapply actions_pane_invariant; [|exact E2].
  unfold status_block in E1.
  destruct (list_index REGULATION_STATUSES _); simpl in E1; [|discriminate].
  injection E1 as <-.
  rewrite (proj1 (update_status_tables _ reg db)). exact Hinv.
Qed.

Lemma seed_invariant : Forall completed_iff_done (actions seed_db).
Proof.
  unfold seed_db; cbn [actions].
  repeat (apply Forall_cons;
          [unfold completed_iff_done; cbn [Action.completed_at Action.status];
           split; [congruence | discriminate]|]).
  apply Forall_nil.
Qed.

(* ================================================================== *)
(** * Further properties of the script *)
(* ================================================================== *)

(** ** Seeding *)

(** X1: seeding is idempotent: a second call changes nothing, because
    after the first one the regulations table is not empty; a database
    that already has a regulation is returned as it is, and one with an
    empty regulations table receives exactly the three seed
    regulations. *)
Theorem seed_if_empty_idempotent (db : DB) :
  seed_if_empty (seed_if_empty db) = seed_if_empty db
  /\ regulations (seed_if_empty db) <> []
  /\ match regulations db with
     | [] => regulations (seed_if_empty db) = [r1; r2; r3]
     | _ :: _ => seed_if_empty db = db
     end.
Proof.
  assert (Hreg : regulations db = [] ->
                 regulations (seed_if_empty db) = [r1; r2; r3]).
  { intros E. unfold seed_if_empty. rewrite E.
    cbn [List.length Nat.eqb negb fold_left insert_action insert_link
         insert_regulation regulations seed_actions].
    rewrite E. reflexivity. }
  assert (Hkeep : forall d, regulations d <> [] -> seed_if_empty d = d).
  { intros d Hd. unfold seed_if_empty.
    destruct (regulations d); [contradiction | reflexivity]. }
  assert (Hne : regulations (seed_if_empty db) <> []).
  { destruct (regulations db) as [|x l] eqn:E.
    - rewrite (Hreg eq_refl). discriminate.
    - rewrite Hkeep; rewrite E; discriminate. }
  split; [apply Hkeep; exact Hne|].
  split; [exact Hne|].
  destruct (regulations db) as [|x l] eqn:E.
  - apply Hreg; reflexivity.
  - apply Hkeep. rewrite E. discriminate.
Qed.

(** ** The status select box of a regulation *)

Lemma status_block_runs (picked : option nat) (reg : Regulation.t)
                        (db : DB) :
  regulation_status_offered reg ->
  exists idx,
    index_of REGULATION_STATUSES (or_str (Regulation.status reg) (lit "Open"))
    = Some idx
    /\ status_block picked reg db
       = Ok (update_status (st.selectbox REGULATION_STATUSES idx picked)
                           reg db).
Proof.
  intros H. destruct (index_of_In _ _ H) as [idx E]. exists idx.
  split; [exact E|]. unfold status_block, list_index. rewrite E. reflexivity.
Qed.

(** X2: the status block raises [ValueError], before anything is
    written, exactly when the stored status of the regulation is a
    non-empty string other than "Open", "In Progress" and "Closed";
    otherwise it returns normally. *)
Theorem status_block_raises_iff
    (picked : option nat) (reg : Regulation.t) (db : DB) :
  (status_block picked reg db = Raise ValueError
   <-> ~ regulation_status_offered reg)
  /\ (regulation_status_offered reg
      <-> Regulation.status reg = None
          \/ Regulation.status reg = Some []
          \/ exists s, Regulation.status reg = Some s
                       /\ In s REGULATION_STATUSES)
  /\ ((exists db', status_block picked reg db = Ok db')
      <-> regulation_status_offered reg).
Proof.
  assert (Hok : regulation_status_offered reg ->
                exists db', status_block picked reg db = Ok db').
  { intros H. destruct (status_block_runs picked reg db H) as [idx [_ E]].
    eexists; exact E. }
  split; [|split].
  - split; [|apply status_block_raises].
    intros E H. destruct (Hok H) as [db' E']. congruence.
  - unfold regulation_status_offered.
    destruct (Regulation.status reg) as [[|c s]|]; simpl.
    + split; [auto | intros _; left; reflexivity].
    + split.
      * intros H. right; right. exists (c :: s). split; [reflexivity|].
        exact H.
      * intros [H|[H|[s' [[= <-] H]]]]; try discriminate. exact H.
    + split; [auto | intros _; left; reflexivity].
  - split; [|exact Hok].
    intros [db' E].
    destruct (index_of REGULATION_STATUSES
                (or_str (Regulation.status reg) (lit "Open"))) as [i|] eqn:Ei.
    + unfold regulation_status_offered.
      destruct (index_of_nth _ _ _ Ei) as [<- Hi]. apply nth_In; exact Hi.
    + unfold status_block, list_index in E. rewrite Ei in E. discriminate.
Qed.

Example archived_regulation_cannot_be_opened :
  status_block (Some 0%nat) archived_regulation
               (mkDB [archived_regulation] [] [])
  = Raise ValueError.
Proof. vm_compute. reflexivity. Qed.

Lemma find_map_other {A} (key : A -> Z) (k i : Z) (new : A) (l : list A) :
  key new = k -> i <> k ->
  List.find (fun x => key x =? i)
            (List.map (fun x => if key x =? k then new else x) l)
  = List.find (fun x => key x =? i) l.
Proof.
  intros Hk Hi. induction l as [|x l IH]; simpl; [reflexivity|].
  destruct (key x =? k) eqn:E.
  - apply Z.eqb_eq in E.
    replace (key new =? i) with false by (symmetry; apply Z.eqb_neq; lia).
    replace (key x =? i) with false by (symmetry; apply Z.eqb_neq; lia).
    exact IH.
  - destruct (key x =? i); [reflexivity | exact IH].
Qed.

Lemma map_key_update {A} (key : A -> Z) (k : Z) (new : A) (l : list A) :
  key new = k ->
  List.map key (List.map (fun x => if key x =? k then new else x) l)
  = List.map key l.
Proof.
  intros Hk. induction l as [|x l IH]; simpl; [reflexivity|].
  rewrite IH. destruct (key x =? k) eqn:E; [|reflexivity].
  apply Z.eqb_eq in E. congruence.
Qed.

(** X5: a status change touches one key only: the ids of the
    regulations table and their order are what they were, every other
    regulation is read back unchanged, and the links and actions tables
    are not written. *)
Theorem status_block_frame
    (picked : option nat) (reg : Regulation.t) (db db' : DB)
    (Hrun : status_block picked reg db = Ok db') :
  List.map Regulation.id (regulations db')
  = List.map Regulation.id (regulations db)
  /\ (forall i, i <> Regulation.id reg ->
      get_regulation db' i = get_regulation db i)
  /\ actions db' = actions db
  /\ regulation_links db' = regulation_links db.
Proof.
  unfold status_block in Hrun.
  destruct (list_index REGULATION_STATUSES _) as [idx|]; simpl in Hrun;
    [|discriminate].
  injection Hrun as <-. unfold update_status.
  destruct (negb _); [|repeat split; reflexivity].
  unfold commit_regulation, get_regulation; simpl.
  split; [apply (map_key_update Regulation.id); reflexivity|].
  split; [|split; reflexivity].
  intros i Hi. apply (find_map_other Regulation.id); [reflexivity | exact Hi].
Qed.

Lemma status_block_frame_witness :
  List.map Regulation.id
    (regulations (update_status (lit "Closed") r2 seed_db))
  = List.map Regulation.id (regulations seed_db)
  /\ (forall i, i <> Regulation.id r2 ->
      get_regulation (update_status (lit "Closed") r2 seed_db) i
      = get_regulation seed_db i)
  /\ actions (update_status (lit "Closed") r2 seed_db) = actions seed_db
  /\ regulation_links (update_status (lit "Closed") r2 seed_db)
     = regulation_links seed_db.
Proof.
  refine (status_block_frame (Some 2%nat) r2 seed_db
            (update_status (lit "Closed") r2 seed_db) _).
  vm_compute. reflexivity.
Defined.

(** X6: a status change is stable under the rerun of the script: once
    the new status is stored, running the block again on the reloaded
    regulation with the select box in the same state writes nothing. *)
Theorem status_block_rerun
    (picked : option nat) (reg : Regulation.t) (db : DB)
    (Hget : get_regulation db (Regulation.id reg) = Some reg)
    (Hoffered : regulation_status_offered reg) :
  exists db' reg',
    status_block picked reg db = Ok db'
    /\ get_regulation db' (Regulation.id reg) = Some reg'
    /\ status_block picked reg' db' = Ok db'.
Proof.
  destruct (status_block_runs picked reg db Hoffered) as [idx [E Hrun]].
  set (v := st.selectbox REGULATION_STATUSES idx picked) in *.
  assert (Hv : In v REGULATION_STATUSES)
    by (apply selectbox_offered; apply (index_of_nth _ _ _ E)).
  destruct (update_status_stores v reg db Hget) as [reg' [Hg [Hs _]]].
  exists (update_status v reg db), reg'.
  split; [exact Hrun|]. split; [exact Hg|].
  assert (Hor : or_str (Regulation.status reg') (lit "Open") = v).
  { rewrite Hs. simpl in Hv.
    destruct Hv as [<-|[<-|[<-|[]]]]; reflexivity. }
  assert (Ho' : regulation_status_offered reg').
  { unfold regulation_status_offered. rewrite Hor. exact Hv. }
  destruct (status_block_runs picked reg' (update_status v reg db) Ho')
    as [idx' [E' ->]].
  rewrite Hor in E'. destruct (index_of_nth _ _ _ E') as [Hn' Hi'].
  assert (Hsame : st.selectbox REGULATION_STATUSES idx' picked = v).
  { unfold v, st.selectbox. destruct picked as [i|]; [|exact Hn'].
    destruct (Nat.ltb i (List.length REGULATION_STATUSES)) eqn:Ei;
      [reflexivity|].
    destruct (index_of_nth _ _ _ E) as [Hn _].
    fold v in Hn'. unfold v, st.selectbox in Hn'. rewrite Ei in Hn'.
    exact Hn'. }
  rewrite Hsame. unfold update_status at 1. rewrite Hs. simpl.
  rewrite str_eqb_refl. reflexivity.
Qed.

Lemma status_block_rerun_witness :
  exists db' reg',
    status_block (Some 2%nat) r2 seed_db = Ok db'
    /\ get_regulation db' (Regulation.id r2) = Some reg'
    /\ status_block (Some 2%nat) reg' db' = Ok db'.
Proof.
  refine (status_block_rerun (Some 2%nat) r2 seed_db _ _).
  - reflexivity.
  - left; reflexivity.
Defined.

(** ** The expander of an action *)


Lemma find_filter_out {A} (key : A -> Z) (k : Z) (l : list A) :
  List.find (fun x => key x =? k)
            (List.filter (fun x => negb (key x =? k)) l) = None.
Proof.
  induction l as [|x l IH]; simpl; [reflexivity|].
  destruct (key x =? k) eqn:E; simpl; [exact IH|].
  rewrite E. exact IH.
Qed.

Lemma find_filter_other {A} (key : A -> Z) (k i : Z) (l : list A) :
  i <> k ->
  List.find (fun x => key x =? i)
            (List.filter (fun x => negb (key x =? k)) l)
  = List.find (fun x => key x =? i) l.
Proof.
  intros Hi. induction l as [|x l IH]; simpl; [reflexivity|].
  destruct (key x =? k) eqn:E; simpl.
  - apply Z.eqb_eq in E.
    replace (key x =? i) with false by (symmetry; apply Z.eqb_neq; lia).
    exact IH.
  - destruct (key x =? i); [reflexivity | exact IH].
Qed.

(** X8: "Delete" removes the action for good, whether or not "Save" is
    pressed in the same run: its id can no longer be loaded, it is gone
    from the regulation's actions, and every action with another id
    stays in the table as it was. *)
Theorem delete_removes_action
    (clock : Clock) (w : ActionWidgets) (a : Action.t)
    (reg : Regulation.t) (db : DB)
    (Hoffered : status_offered a) (Hdelete : w_delete w = true) :
  exists db',
    action_block clock w a db = Ok db'
    /\ get_action db' (Action.id a) = None
    /\ (forall x, In x (reg_actions db' reg) -> Action.id x <> Action.id a)
    /\ (forall x, Action.id x <> Action.id a ->
        (In x (actions db') <-> In x (actions db)))
    /\ (forall i, i <> Action.id a -> get_action db' i = get_action db i)
    /\ regulations db' = regulations db.
Proof.
  rewrite (action_block_runs clock w a db Hoffered), Hdelete.
  eexists. split; [reflexivity|].
  set (db1 := if w_save w then commit_action db (edited clock a w) else db).
  assert (H1 : forall i, i <> Action.id a ->
                         get_action db1 i = get_action db i).
  { intros i Hi. unfold db1. destruct (w_save w); [|reflexivity].
    unfold get_action, commit_action; simpl.
    apply (find_map_other Action.id); [reflexivity | exact Hi]. }
  assert (H2 : forall x, Action.id x <> Action.id a ->
                         (In x (actions db1) <-> In x (actions db))).
  { intros x Hx. unfold db1. destruct (w_save w); [|reflexivity].
    unfold commit_action; simpl. rewrite in_map_iff. split.
    - intros [y [Hy Hin]].
      change (Action.id (edited clock a w)) with (Action.id a) in Hy.
      destruct (Action.id y =? Action.id a) eqn:E.
      + subst x. exfalso. apply Hx. reflexivity.
      + subst y. exact Hin.
    - intros Hin. exists x. split; [|exact Hin].
      change (Action.id (edited clock a w)) with (Action.id a).
      replace (Action.id x =? Action.id a) with false; [reflexivity|].
      symmetry. apply Z.eqb_neq. exact Hx. }
  assert (H3 : regulations db1 = regulations db)
    by (unfold db1; destruct (w_save w); reflexivity).
  unfold get_action, delete_action, reg_actions; simpl.
  split; [apply (find_filter_out Action.id)|].
  split.
  { intros x Hx. apply filter_In in Hx. destruct Hx as [Hx _].
    apply filter_In in Hx. destruct Hx as [_ Hx].
    apply negb_true_iff, Z.eqb_neq in Hx. exact Hx. }
  split.
  { intros x Hx. rewrite filter_In, <- (H2 x Hx).
    split; [tauto|]. intros Hin. split; [exact Hin|].
    apply negb_true_iff, Z.eqb_neq. exact Hx. }
  split; [|exact H3].
  intros i Hi. rewrite (find_filter_other Action.id) by exact Hi.
  apply H1; exact Hi.
Qed.

Lemma delete_removes_action_witness :
  exists db',
    action_block clock0 press_delete seed_a1 seed_db = Ok db'
    /\ get_action db' (Action.id seed_a1) = None
    /\ (forall x, In x (reg_actions db' r1) ->
        Action.id x <> Action.id seed_a1)
    /\ (forall x, Action.id x <> Action.id seed_a1 ->
        (In x (actions db') <-> In x (actions seed_db)))
    /\ (forall i, i <> Action.id seed_a1 ->
        get_action db' i = get_action seed_db i)
    /\ regulations db' = regulations seed_db.
Proof.
  refine (delete_removes_action clock0 press_delete seed_a1 r1 seed_db
            _ eq_refl).
  right; left; reflexivity.
Defined.

Example delete_first_seed_action :
  option_map (fun db => List.map Action.id (actions db))
    (match action_block clock0 press_delete seed_a1 seed_db with
     | Ok db => Some db | Raise _ => None end)
  = Some [2; 3].
Proof. vm_compute. reflexivity. Qed.

(** X9: a "Done" action cannot leave "Done" through the status select
    box alone: its "Mark done" box starts ticked, so as long as the
    operator does not untick it, "Save" stores "Done" again, whatever
    the select box says, and stamps [completed_at] with the current
    time. *)
Theorem done_is_sticky
    (clock : Clock) (w : ActionWidgets) (a : Action.t) (db : DB)
    (Hin : In a (actions db))
    (Hstatus : Action.status a = Some Done)
    (Hbox : w_done w = None)
    (Hsave : w_save w = true) (Hdelete : w_delete w = false) :
  exists db' a',
    action_block clock w a db = Ok db'
    /\ get_action db' (Action.id a) = Some a'
    /\ Action.status a' = Some Done
    /\ Action.completed_at a' = Some (utcnow clock).
Proof.
  assert (Ho : status_offered a).
  { unfold status_offered. rewrite Hstatus. right; right; left; reflexivity. }
  exists (commit_action db (edited clock a w)), (edited clock a w).
  split; [apply action_block_saves; assumption|].
  split; [apply get_action_commit; [exact Hin | reflexivity]|].
  unfold edited, save_action, done_flag. rewrite Hbox, Hstatus. simpl.
  split; reflexivity.
Qed.

Lemma done_is_sticky_witness :
  exists db' a',
    action_block clock0 pick_planned_and_save done_action
                 (mkDB [r1] [] [done_action]) = Ok db'
    /\ get_action db' (Action.id done_action) = Some a'
    /\ Action.status a' = Some Done
    /\ Action.completed_at a' = Some (utcnow clock0).
Proof.
  refine (done_is_sticky clock0 pick_planned_and_save done_action
            (mkDB [r1] [] [done_action]) _ eq_refl eq_refl eq_refl eq_refl).
  left; reflexivity.
Defined.

(** X10: "Save" rewrites one key only: the ids of the actions table and
    their order are kept, the saved action keeps its id and its owning
    regulation, every action with another id is read back unchanged,
    and the regulations and links tables are not written. *)
Theorem save_frame
    (clock : Clock) (w : ActionWidgets) (a : Action.t) (db : DB)
    (Hin : In a (actions db)) (Hoffered : status_offered a)
    (Hsave : w_save w = true) (Hdelete : w_delete w = false) :
  exists db' a',
    action_block clock w a db = Ok db'
    /\ get_action db' (Action.id a) = Some a'
    /\ Action.id a' = Action.id a
    /\ Action.regulation_id a' = Action.regulation_id a
    /\ List.map Action.id (actions db') = List.map Action.id (actions db)
    /\ (forall i, i <> Action.id a -> get_action db' i = get_action db i)
    /\ regulations db' = regulations db
    /\ regulation_links db' = regulation_links db.
Proof.
  exists (commit_action db (edited clock a w)), (edited clock a w).
  split; [apply action_block_saves; assumption|].
  split; [apply get_action_commit; [exact Hin | reflexivity]|].
  split; [reflexivity|]. split; [reflexivity|].
  unfold commit_action, get_action; simpl.
  split; [apply (map_key_update Action.id); reflexivity|].
  split; [|split; reflexivity].
  intros i Hi. apply (find_map_other Action.id); [reflexivity | exact Hi].
Qed.

Lemma save_frame_witness :
  exists db' a',
    action_block clock0 press_save seed_a1 seed_db = Ok db'
    /\ get_action db' (Action.id seed_a1) = Some a'
    /\ Action.id a' = Action.id seed_a1
    /\ Action.regulation_id a' = Action.regulation_id seed_a1
    /\ List.map Action.id (actions db')
       = List.map Action.id (actions seed_db)
    /\ (forall i, i <> Action.id seed_a1 ->
        get_action db' i = get_action seed_db i)
    /\ regulations db' = regulations seed_db
    /\ regulation_links db' = regulation_links seed_db.
Proof.
  refine (save_frame clock0 press_save seed_a1 seed_db _ _ eq_refl eq_refl).
  - left; reflexivity.
  - right; left; reflexivity.
Defined.





(** ** The add-action form, continued *)

Lemma fresh_id_above (ids : list Z) (i : Z) : In i ids -> i < fresh_id ids.
Proof.
  unfold fresh_id. induction ids as [|j ids IH]; intros H; [destruct H|].
  cbn [fold_right]. destruct H as [->|H]; [lia|]. specialize (IH H). lia.
Qed.

Lemma find_app_last {A} (p : A -> bool) (l : list A) (x : A) :
  List.find p (l ++ [x])
  = match List.find p l with
    | Some y => Some y
    | None => if p x then Some x else None
    end.
Proof.
  induction l as [|y l IH]; simpl; [reflexivity|].
  destruct (p y); [reflexivity | exact IH].
Qed.

(** X12: the action created by the form gets an id no action of the
    table has; it can be loaded under that id, the actions that were
    there are loaded as before, and deleting the new action gives back
    the database from before the "Add". *)
Theorem add_then_delete
    (clock : Clock) (f : AddForm) (reg : Regulation.t) (db : DB)
    (Hsubmitted : f_submitted f = true) :
  exists db' a',
    add_action clock f reg db = Ok db'
    /\ actions db' = actions db ++ [a']
    /\ ~ In (Action.id a') (List.map Action.id (actions db))
    /\ get_action db' (Action.id a') = Some a'
    /\ (forall i, i <> Action.id a' -> get_action db' i = get_action db i)
    /\ delete_action db' a' = db.
Proof.
  set (a' := Action.row (fresh_id (List.map Action.id (actions db)))
                        (new_a clock f reg)).
  assert (Hfresh : forall x, In x (actions db) ->
                             (Action.id x =? Action.id a') = false).
  { intros x Hx. apply Z.eqb_neq.
    pose proof (fresh_id_above _ _ (in_map Action.id _ _ Hx)) as H.
    change (Action.id a') with (fresh_id (List.map Action.id (actions db))).
    lia. }
  assert (Hnone : List.find (fun x => Action.id x =? Action.id a') (actions db)
                  = None).
  { destruct (List.find _ (actions db)) as [x|] eqn:E; [|reflexivity].
    apply find_some in E. destruct E as [Hx E].
    rewrite (Hfresh x Hx) in E. discriminate. }
  exists (insert_action db (new_a clock f reg)), a'.
  split; [apply add_action_inserts; exact Hsubmitted|].
  split; [reflexivity|].
  split.
  { intros Hin. apply in_map_iff in Hin. destruct Hin as [x [E Hx]].
    pose proof (Hfresh x Hx) as H. rewrite E, Z.eqb_refl in H.
    discriminate. }
  unfold get_action, insert_action, delete_action.
  cbn [actions regulations regulation_links]. fold a'.
  split.
  { rewrite find_app_last, Hnone, Z.eqb_refl. reflexivity. }
  split.
  { intros i Hi. rewrite find_app_last.
    destruct (List.find (fun x => Action.id x =? i) (actions db));
      [reflexivity|].
    replace (Action.id a' =? i) with false; [reflexivity|].
    symmetry. apply Z.eqb_neq. lia. }
  destruct db as [regs links acts].
  cbn [actions regulations regulation_links] in *. f_equal.
  rewrite filter_app. cbn [List.filter]. rewrite Z.eqb_refl.
  cbn [negb]. rewrite app_nil_r. apply forallb_filter_id.
  apply forallb_forall. intros x Hx. rewrite (Hfresh x Hx). reflexivity.
Qed.

Lemma add_then_delete_witness :
  exists db' a',
    add_action clock0 submit_defaults r2 seed_db = Ok db'
    /\ actions db' = actions seed_db ++ [a']
    /\ ~ In (Action.id a') (List.map Action.id (actions seed_db))
    /\ get_action db' (Action.id a') = Some a'
    /\ (forall i, i <> Action.id a' ->
        get_action db' i = get_action seed_db i)
    /\ delete_action db' a' = seed_db.
Proof.
  exact (add_then_delete clock0 submit_defaults r2 seed_db eq_refl).
Defined.

(** ** Labels and selection, continued *)

(** X13: regulations with different ids get different labels, whatever
    their titles: on a table with unique ids the options of the
    selection box are pairwise distinct. *)
Theorem labels_distinct (l : list Regulation.t)
    (Hkey : NoDup (ids l)) :
  NoDup (titles l)
  /\ (forall r r', label r = label r' -> Regulation.id r = Regulation.id r')
  /\ ~ In none_label (titles l).
Proof.
  split; [|split].
  - unfold ids, titles in *. induction l as [|x l IH]; simpl; [constructor|].
    inversion Hkey as [|? ? Hx Hl]; subst. constructor; [|auto].
    intros Hin. apply in_map_iff in Hin. destruct Hin as [y [E Hy]].
    apply Hx. rewrite <- (label_inj _ _ E). apply in_map; exact Hy.
  - intros r r' E. apply label_inj; exact E.
  - intros Hin. apply in_map_iff in Hin. destruct Hin as [y [E _]].
    pose proof (label_not_none y) as H. rewrite E, str_eqb_refl in H.
    discriminate.
Qed.

Lemma labels_distinct_witness :
  NoDup (titles (regulations seed_db))
  /\ (forall r r', label r = label r' -> Regulation.id r = Regulation.id r')
  /\ ~ In none_label (titles (regulations seed_db)).
Proof.
  refine (labels_distinct (regulations seed_db) _).
  repeat constructor; simpl; lia.
Defined.

Lemma index_of_titles_id (l : list Regulation.t) (i : nat)
                         (r : Regulation.t) :
  nth_error l i = Some r ->
  exists j, index_of (titles l) (label r) = Some j
            /\ nth_error (ids l) j = Some (Regulation.id r).
Proof.
  unfold titles, ids.
  revert i; induction l as [|x l IH]; intros i Hi.
  - destruct i; discriminate.
  - change (List.map label (x :: l)) with (label x :: List.map label l).
    cbn [index_of].
    destruct (str_eqb (label x) (label r)) eqn:E.
    + exists O. split; [reflexivity|].
      apply str_eqb_eq, label_inj in E. simpl. rewrite E. reflexivity.
    + destruct i as [|i]; cbn [nth_error] in Hi.
      * injection Hi as ->. rewrite str_eqb_refl in E. discriminate.
      * destruct (IH i Hi) as [j [Hj Hid]]. exists (S j).
        rewrite Hj. split; [reflexivity | exact Hid].
Qed.

Lemma selected_id_value (l : list Regulation.t) (picked : option nat) :
  selected_id l picked
  = Ok (match picked with
        | Some (S i) => option_map Regulation.id (nth_error l i)
        | _ => None
        end).
Proof.
  assert (Hnone : forall p,
    st.selectbox (none_label :: titles l) 0 p = none_label ->
    selected_id l p = Ok None).
  { intros p H. unfold selected_id. rewrite H, str_eqb_refl. reflexivity. }
  destruct picked as [[|i]|]; [apply Hnone; reflexivity | | apply Hnone;
    reflexivity].
  destruct (nth_error l i) as [r|] eqn:Hi.
  - assert (Hlen : (i < List.length l)%nat)
      by (apply nth_error_Some; congruence).
    unfold selected_id, st.selectbox.
    replace (Nat.ltb (S i) (List.length (none_label :: titles l))) with true.
    2:{ symmetry. apply Nat.ltb_lt. simpl. unfold titles.
        rewrite length_map. lia. }
    assert (Hn : nth (S i) (none_label :: titles l) [] = label r).
    { simpl. unfold titles.
      rewrite (nth_indep _ [] (label r)) by (rewrite length_map; exact Hlen).
      rewrite map_nth. f_equal. apply nth_error_nth; exact Hi. }
    rewrite Hn, label_not_none. simpl.
    destruct (index_of_titles_id l i r Hi) as [j [Hj Hid]].
    unfold list_index. rewrite Hj. simpl. rewrite Hid. reflexivity.
  - apply Hnone. unfold st.selectbox.
    replace (Nat.ltb (S i) (List.length (none_label :: titles l))) with false;
      [reflexivity|].
    symmetry. apply Nat.ltb_ge. apply nth_error_None in Hi.
    simpl. unfold titles. rewrite length_map. lia.
Qed.

(** X14: the selection never raises, also on a list with repeated ids
    or titles: the option "(none)" (the box's default) selects nothing,
    and the option of the [i]-th listed regulation selects that
    regulation's id, because [titles.index] can only stop early at a
    label that carries the same id. *)
Theorem selection_reads_id (l : list Regulation.t) (picked : option nat) :
  (exists sel, selected_id l picked = Ok sel)
  /\ selected_id l None = Ok None
  /\ selected_id l (Some 0%nat) = Ok None
  /\ (forall i, selected_id l (Some (S i))
                = Ok (option_map Regulation.id (nth_error l i))).
Proof.
  split; [eexists; apply selected_id_value|].
  split; [apply selected_id_value|].
  split; [apply selected_id_value|].
  intros i. apply selected_id_value.
Qed.

Example selection_with_repeated_ids :
  selected_id [r1; r2; r2; r3] (Some 3%nat) = Ok (Some 2).
Proof. vm_compute. reflexivity. Qed.

(** ** One run of the page *)

(** X15: a regulation whose id is 0 is listed and labelled, but picking
    it shows the "select a regulation" notice and nothing is run: the
    test [if not selected_id] takes the id 0 for "nothing selected". *)
Theorem zero_id_cannot_be_opened
    (lower : str -> str) (clock : Clock) (g : PageWidgets) (db : DB)
    (i : nat) (r : Regulation.t)
    (Hi : nth_error (listRegulations lower (g_filter g) db) i = Some r)
    (Hpick : g_pick g = Some (S i))
    (Hzero : Regulation.id r = 0) :
  page lower clock g db = Ok Info
  /\ nth_error (titles (listRegulations lower (g_filter g) db)) i
     = Some (label r).
Proof.
  split.
  - unfold page. rewrite Hpick, selected_id_value, Hi. simpl.
    rewrite Hzero. reflexivity.
  - unfold titles. rewrite nth_error_map, Hi. reflexivity.
Qed.

Lemma zero_id_cannot_be_opened_witness :
  page ascii_lower clock0
       (mkPageWidgets (mkFilter None All All All) (Some 1%nat) idle_pane)
       (mkDB [regulation_zero; r1] [] [])
  = Ok Info
  /\ nth_error (titles (listRegulations ascii_lower
                          (g_filter (mkPageWidgets (mkFilter None All All All)
                                       (Some 1%nat) idle_pane))
                          (mkDB [regulation_zero; r1] [] []))) 0
     = Some (label regulation_zero).
Proof.
  refine (zero_id_cannot_be_opened ascii_lower clock0
            (mkPageWidgets (mkFilter None All All All) (Some 1%nat) idle_pane)
            (mkDB [regulation_zero; r1] [] []) 0 regulation_zero _ _ _).
  - vm_compute. reflexivity.
  - reflexivity.
  - reflexivity.
Defined.

Lemma get_regulation_some (db : DB) (r : Regulation.t) :
  In r (regulations db) ->
  exists r', get_regulation db (Regulation.id r) = Some r'.
Proof.
  unfold get_regulation. induction (regulations db) as [|x l IH]; simpl;
    intros Hin; [contradiction|].
  destruct (Regulation.id x =? Regulation.id r) eqn:E; [eexists; reflexivity|].
  destruct Hin as [->|Hin]; [rewrite Z.eqb_refl in E; discriminate|].
  apply IH; exact Hin.
Qed.

(** X16: within one run the "Not found." branch is dead and the
    selection cannot raise: whatever the filter, the pick and the
    tables, the page shows either the notice or the detail of a
    regulation, since the selected id comes from a row loaded in the
    same run. *)
Theorem page_never_not_found
    (lower : str -> str) (clock : Clock) (g : PageWidgets) (db : DB) :
  page lower clock g db = Ok Info
  \/ exists reg db' e,
       page lower clock g db = Ok (Detail reg db' e)
       /\ In reg (regulations db)
       /\ Regulation.id reg <> 0
       /\ run_pane clock (g_pane g) reg db = (db', e).
Proof.
  unfold page. rewrite selected_id_value. simpl.
  destruct (g_pick g) as [[|i]|]; try (left; reflexivity).
  destruct (nth_error (listRegulations lower (g_filter g) db) i)
    as [r|] eqn:Hi; [|left; reflexivity].
  simpl. unfold right_pane, int_truthy.
  destruct (Regulation.id r =? 0) eqn:Ez; [left; reflexivity|].
  simpl. right.
  assert (Hin : In r (regulations db)).
  { apply nth_error_In in Hi. rewrite listRegulations_filter in Hi.
    apply filter_In in Hi. tauto. }
  destruct (get_regulation_some db r Hin) as [r' Hr]. rewrite Hr.
  pose proof Hr as Hf. unfold get_regulation in Hf. apply find_some in Hf.
  destruct Hf as [Hin' Hid]. apply Z.eqb_eq in Hid.
  destruct (run_pane clock (g_pane g) r' db) as [db' e] eqn:Er.
  exists r', db', e. repeat split; try assumption.
  rewrite Hid. apply Z.eqb_neq; exact Ez.
Qed.

(** ** The options of the sidebar *)

Lemma distinct_In (col : list (option str)) (x : option str) :
  In x (distinct col) <-> In x col.
Proof.
  induction col as [|y col IH]; [simpl; tauto|].
  cbn [distinct]. split.
  - intros [H|H]; [left; exact H|].
    apply filter_In in H. right. apply IH, H.
  - intros [H|H]; [left; exact H|].
    destruct (opt_str_eqb x y) eqn:E.
    + left. apply opt_str_eqb_eq in E. congruence.
    + right. apply filter_In. split; [apply IH, H|].
      cbv beta. rewrite E. reflexivity.
Qed.

Lemma distinct_NoDup (col : list (option str)) : NoDup (distinct col).
Proof.
  induction col as [|y col IH]; cbn [distinct]; constructor.
  - rewrite filter_In. intros [_ H]. cbv beta in H.
    assert (E : opt_str_eqb y y = true) by (apply opt_str_eqb_eq; reflexivity).
    rewrite E in H. discriminate.
  - apply NoDup_filter. exact IH.
Qed.

Lemma truthy_values_In (rows : list (option str)) (s : str) :
  In s (truthy_values rows) <-> s <> [] /\ In (Some s) rows.
Proof.
  unfold truthy_values. rewrite in_flat_map. split.
  - intros [x [Hx Hs]]. destruct x as [[|c t]|]; simpl in Hs;
      try contradiction.
    destruct Hs as [<-|[]]. split; [discriminate | exact Hx].
  - intros [Hne Hin]. exists (Some s). split; [exact Hin|].
    destruct s; [contradiction | left; reflexivity].
Qed.

Lemma truthy_values_NoDup (rows : list (option str)) :
  NoDup rows -> NoDup (truthy_values rows).
Proof.
  induction 1 as [|x rows Hx Hnd IH]; simpl; [constructor|].
  destruct x as [[|c t]|]; simpl; try exact IH.
  constructor; [|exact IH].
  intros Hin. apply truthy_values_In in Hin. tauto.
Qed.

(** X17: the "Source" and "Category" select boxes offer, besides "All",
    each non-empty value of the column exactly once (NULL and [""] are
    not offered); picking an offered source other than the string "All"
    lists at least one regulation, and only regulations with exactly
    that source. *)
Theorem source_options_select
    (lower : str -> str) (Hlower : lower [] = []) (db : DB) :
  NoDup (sources db) /\ NoDup (categories db)
  /\ (forall s, In s (sources db)
                <-> s <> [] /\ exists r, In r (regulations db)
                                         /\ Regulation.source r = Some s)
  /\ (forall c, In c (categories db)
                <-> c <> [] /\ exists r, In r (regulations db)
                                         /\ Regulation.category r = Some c)
  /\ (forall s, In s (sources db) -> s <> All ->
      listRegulations lower (mkFilter None s All All) db <> []
      /\ forall r, In r (listRegulations lower (mkFilter None s All All) db)
                   -> Regulation.source r = Some s).
Proof.
  assert (Hchar : forall (col : Regulation.t -> option str) s,
    In s (truthy_values (distinct (List.map col (regulations db))))
    <-> s <> [] /\ exists r, In r (regulations db) /\ col r = Some s).
  { intros col s. rewrite truthy_values_In, distinct_In, in_map_iff.
    split; intros [Hne [r H]]; (split; [exact Hne|]); exists r; tauto. }
  split; [apply truthy_values_NoDup, distinct_NoDup|].
  split; [apply truthy_values_NoDup, distinct_NoDup|].
  split; [apply Hchar|]. split; [apply Hchar|].
  intros s Hs Hall.
  assert (Hin : forall r,
    In r (listRegulations lower (mkFilter None s All All) db)
    <-> In r (regulations db) /\ Regulation.source r = Some s).
  { intros r. rewrite listRegulations_filter, filter_In, keeps_satisfies.
    unfold satisfies, facets_match, facet_matches; simpl.
    pose proof (empty_query_matches lower r Hlower). intuition. }
  split.
  - apply Hchar in Hs. destruct Hs as [_ [r Hr]].
    apply Hin in Hr. intros E. rewrite E in Hr. exact Hr.
  - intros r Hr. apply Hin in Hr. tauto.
Qed.

Lemma source_options_select_witness :
  ascii_lower [] = []
  /\ NoDup (sources seed_db) /\ NoDup (categories seed_db)
  /\ (forall s, In s (sources seed_db)
                <-> s <> [] /\ exists r, In r (regulations seed_db)
                                         /\ Regulation.source r = Some s)
  /\ (forall c, In c (categories seed_db)
                <-> c <> [] /\ exists r, In r (regulations seed_db)
                                         /\ Regulation.category r = Some c)
  /\ (forall s, In s (sources seed_db) -> s <> All ->
      listRegulations ascii_lower (mkFilter None s All All) seed_db <> []
      /\ forall r,
           In r (listRegulations ascii_lower (mkFilter None s All All) seed_db)
           -> Regulation.source r = Some s).
Proof.
  split; [reflexivity|].
  exact (source_options_select ascii_lower eq_refl seed_db).
Defined.

Example seed_source_options :
  source_options seed_db = [All; lit "EU"; lit "IMO"; lit "USCG"].
Proof. vm_compute. reflexivity. Qed.

(** ** What every reachable database satisfies *)

Lemma seed_db_eq : seed_if_empty empty_db = seed_db.
Proof. vm_compute. reflexivity. Qed.

Lemma seed_well_formed : well_formed seed_db.
Proof.
  unfold well_formed.
  split; [exact seed_invariant|].
  unfold seed_db; cbn [actions regulations regulation_links].
  split.
  { repeat (apply Forall_cons;
            [eexists; split; [reflexivity | simpl; auto 8]|]).
    apply Forall_nil. }
  split; [repeat constructor; simpl; lia|].
  split.
  { repeat (apply Forall_cons;
            [eexists; split; [|reflexivity]; simpl; auto 8|]).
    apply Forall_nil. }
  split.
  { repeat (apply Forall_cons;
            [eexists; split; [reflexivity | simpl; auto 8]|]).
    apply Forall_nil. }
  split; reflexivity.
Qed.

Lemma fixed_part_ids (l : list Regulation.t) :
  List.map Regulation.id l = List.map Regulation.id (List.map fixed_part l).
Proof. rewrite map_map. apply map_ext. reflexivity. Qed.

Lemma well_formed_regulation_ids (db : DB) :
  well_formed db -> List.map Regulation.id (regulations db) = [1; 2; 3].
Proof.
  intros (_ & _ & _ & _ & _ & H & _).
  rewrite fixed_part_ids, H. reflexivity.
Qed.

Lemma NoDup_map_In_eq {A B} (g : A -> B) (l : list A) (x y : A) :
  NoDup (List.map g l) -> In x l -> In y l -> g x = g y -> x = y.
Proof.
  induction l as [|z l IH]; simpl; intros Hnd Hx Hy E; [contradiction|].
  inversion Hnd as [|? ? Hz Hl]; subst.
  destruct Hx as [->|Hx], Hy as [->|Hy]; auto.
  - exfalso. apply Hz. rewrite E. apply in_map; exact Hy.
  - exfalso. apply Hz. rewrite <- E. apply in_map; exact Hx.
Qed.

Lemma get_regulation_In_table (db : DB) (i : Z) (reg : Regulation.t) :
  get_regulation db i = Some reg ->
  In reg (regulations db) /\ Regulation.id reg = i.
Proof.
  unfold get_regulation. intros H. apply find_some in H.
  destruct H as [Hin E]. apply Z.eqb_eq in E. auto.
Qed.

Lemma Forall_update {A} (P : A -> Prop) (t : A -> bool) (new : A)
                    (l : list A) :
  P new -> Forall P l ->
  Forall P (List.map (fun x => if t x then new else x) l).
Proof.
  intros Hn H. induction H as [|x l Hx _ IH]; simpl; constructor; auto.
  destruct (t x); assumption.
Qed.

Lemma Forall_filter {A} (P : A -> Prop) (t : A -> bool) (l : list A) :
  Forall P l -> Forall P (List.filter t l).
Proof.
  intros H. rewrite Forall_forall in *. intros x Hx.
  apply filter_In in Hx. apply H, Hx.
Qed.

Lemma legal_regulation_offered (reg : Regulation.t) :
  legal_regulation_status reg -> regulation_status_offered reg.
Proof.
  intros [s [E H]]. unfold regulation_status_offered. rewrite E.
  simpl in H. destruct H as [<-|[<-|[<-|[]]]]; simpl; auto.
Qed.

Lemma legal_action_offered (a : Action.t) :
  legal_action_status a -> status_offered a.
Proof.
  intros [s [E H]]. unfold status_offered. rewrite E.
  simpl in H. destruct H as [<-|[<-|[<-|[<-|[]]]]]; simpl; auto 6.
Qed.

Lemma status_block_well_formed (picked : option nat) (reg : Regulation.t)
                               (db : DB) :
  well_formed db -> get_regulation db (Regulation.id reg) = Some reg ->
  exists db1,
    status_block picked reg db = Ok db1
    /\ well_formed db1
    /\ actions db1 = actions db
    /\ List.map Regulation.id (regulations db1)
       = List.map Regulation.id (regulations db).
Proof.
  intros Hwf Hget.
  destruct (get_regulation_In_table _ _ _ Hget) as [Hin _].
  pose proof (well_formed_regulation_ids db Hwf) as Hids.
  destruct Hwf as (H1 & H2 & H4 & H5 & H6 & H7 & H8).
  assert (Hlegal : legal_regulation_status reg)
    by (rewrite Forall_forall in H6; apply H6; exact Hin).
  destruct (status_block_runs picked reg db
              (legal_regulation_offered reg Hlegal)) as [idx [E Hrun]].
  set (v := st.selectbox REGULATION_STATUSES idx picked) in *.
  assert (Hv : In v REGULATION_STATUSES)
    by (apply selectbox_offered; apply (index_of_nth _ _ _ E)).
  exists (update_status v reg db). split; [exact Hrun|].
  unfold update_status. destruct (negb _).
  2:{ repeat split; assumption. }
  unfold commit_regulation; cbn [actions regulations regulation_links].
  assert (Hmap : List.map Regulation.id
            (List.map (fun r => if Regulation.id r =? Regulation.id
                                     (Regulation.set_status reg (Some v))
                                then Regulation.set_status reg (Some v)
                                else r) (regulations db))
          = List.map Regulation.id (regulations db))
    by (apply (map_key_update Regulation.id); reflexivity).
  split; [|split; [reflexivity | exact Hmap]].
  unfold well_formed; cbn [actions regulations regulation_links].
  rewrite Hmap.
  repeat (split; [assumption|]).
  split.
  { apply Forall_update; [|exact H6]. exists v. split; [reflexivity | exact Hv]. }
  split; [|exact H8].
  rewrite <- H7. rewrite map_map. apply map_ext_in. intros r Hr.
  change (Regulation.id (Regulation.set_status reg (Some v)))
    with (Regulation.id reg).
  destruct (Regulation.id r =? Regulation.id reg) eqn:Er; [|reflexivity].
  apply Z.eqb_eq in Er.
  assert (r = reg).
  { apply (NoDup_map_In_eq Regulation.id (regulations db)); auto.
    rewrite Hids. repeat constructor; simpl; lia. }
  subst r. reflexivity.
Qed.

Lemma supplied_status_offered (a : Action.t) (w : ActionWidgets) :
  status_offered a -> In (supplied_status a w) ACTION_STATUSES.
Proof.
  intros H. unfold supplied_status.
  destruct (index_of_In _ _ H) as [idx E]. rewrite E.
  apply selectbox_offered. apply (index_of_nth _ _ _ E).
Qed.

Lemma well_formed_commit_action (db : DB) (e : Action.t) :
  well_formed db ->
  completed_iff_done e -> legal_action_status e ->
  owned_by (List.map Regulation.id (regulations db)) e ->
  well_formed (commit_action db e).
Proof.
  intros (H1 & H2 & H4 & H5 & H6 & H7 & H8) E1 E2 E5.
  unfold well_formed, commit_action; cbn [actions regulations regulation_links].
  split; [apply Forall_update; assumption|].
  split; [apply Forall_update; assumption|].
  split; [rewrite (map_key_update Action.id); [assumption | reflexivity]|].
  split; [apply Forall_update; assumption|].
  repeat split; assumption.
Qed.

Lemma well_formed_delete_action (db : DB) (a : Action.t) :
  well_formed db -> well_formed (delete_action db a).
Proof.
  intros (H1 & H2 & H4 & H5 & H6 & H7 & H8).
  unfold well_formed, delete_action; cbn [actions regulations regulation_links].
  split; [apply Forall_filter; assumption|].
  split; [apply Forall_filter; assumption|].
  split; [apply NoDup_map_filter; assumption|].
  split; [apply Forall_filter; assumption|].
  repeat split; assumption.
Qed.

Lemma edited_legal (clock : Clock) (a : Action.t) (w : ActionWidgets) :
  status_offered a -> legal_action_status (edited clock a w).
Proof.
  intros H. unfold legal_action_status, edited, save_action; simpl.
  eexists. split; [reflexivity|].
  destruct (done_flag a w); [|apply supplied_status_offered; exact H].
  right; right; left; reflexivity.
Qed.

Lemma action_block_well_formed (clock : Clock) (w : ActionWidgets)
                               (a : Action.t) (db : DB) :
  well_formed db -> legal_action_status a ->
  owned_by (List.map Regulation.id (regulations db)) a ->
  exists db',
    action_block clock w a db = Ok db'
    /\ well_formed db' /\ regulations db' = regulations db.
Proof.
  intros Hwf Hlegal Howned.
  pose proof (legal_action_offered a Hlegal) as Ho.
  rewrite (action_block_runs clock w a db Ho).
  eexists. split; [reflexivity|].
  assert (Hc : well_formed (commit_action db (edited clock a w))).
  { apply well_formed_commit_action; auto.
    - apply edited_completed_iff_done.
    - apply edited_legal; exact Ho. }
  destruct (w_save w), (w_delete w); cbv zeta;
    (split; [|reflexivity]); auto using well_formed_delete_action.
Qed.

Lemma run_actions_well_formed (clock : Clock) (w : Z -> ActionWidgets)
                              (l : list Action.t) (db : DB) :
  well_formed db ->
  Forall (fun a => legal_action_status a
                   /\ owned_by (List.map Regulation.id (regulations db)) a) l ->
  exists db',
    run_actions clock w l db = (db', None)
    /\ well_formed db' /\ regulations db' = regulations db.
Proof.
  revert db; induction l as [|a l IH]; intros db Hwf Hl; simpl.
  - exists db. auto.
  - inversion Hl as [|? ? [Ha1 Ha2] Hl']; subst.
    destruct (action_block_well_formed clock (w (Action.id a)) a db
                Hwf Ha1 Ha2) as [db1 [-> [Hwf1 Hr1]]].
    destruct (IH db1 Hwf1) as [db2 [E [Hwf2 Hr2]]].
    { rewrite Hr1. exact Hl'. }
    exists db2. rewrite E.
    split; [reflexivity|]. split; [exact Hwf2 | congruence].
Qed.

Lemma add_action_well_formed (clock : Clock) (f : AddForm)
                             (reg : Regulation.t) (db : DB) :
  well_formed db ->
  In (Regulation.id reg) (List.map Regulation.id (regulations db)) ->
  exists db', add_action clock f reg db = Ok db' /\ well_formed db'.
Proof.
  intros Hwf Hreg. unfold add_action.
  destruct (f_submitted f); [|exists db; auto].
  eexists. split; [reflexivity|].
  destruct Hwf as (H1 & H2 & H4 & H5 & H6 & H7 & H8).
  unfold well_formed, insert_action; cbn [actions regulations regulation_links].
  set (a' := Action.row (fresh_id (List.map Action.id (actions db)))
                        (new_a clock f reg)).
  split.
  { apply Forall_app. split; [exact H1|]. constructor; [|constructor].
    unfold completed_iff_done, a'; simpl. split; [congruence | discriminate]. }
  split.
  { apply Forall_app. split; [exact H2|]. constructor; [|constructor].
    exists (lit "Planned"). split; [reflexivity | left; reflexivity]. }
  split.
  { rewrite map_app. cbn [List.map].
    apply (Permutation_NoDup (Permutation_cons_append _ _)).
    constructor; [|exact H4].
    intros Hin. apply fresh_id_above in Hin.
    change (Action.id a') with (fresh_id (List.map Action.id (actions db)))
      in Hin.
    lia. }
  split.
  { apply Forall_app. split; [exact H5|]. constructor; [|constructor].
    exists (Regulation.id reg). split; [exact Hreg | reflexivity]. }
  repeat split; assumption.
Qed.

Lemma run_pane_well_formed (clock : Clock) (p : PaneWidgets)
                           (reg : Regulation.t) (db : DB) :
  well_formed db -> get_regulation db (Regulation.id reg) = Some reg ->
  exists db', run_pane clock p reg db = (db', None) /\ well_formed db'.
Proof.
  intros Hwf Hget.
  destruct (get_regulation_In_table _ _ _ Hget) as [Hin _].
  destruct (status_block_well_formed (p_status p) reg db Hwf Hget)
    as [db1 [E1 [Hwf1 [Ha1 Hr1]]]].
  unfold run_pane. rewrite E1.
  destruct (run_actions_well_formed clock (p_actions p)
              (display_order (reg_actions db1 reg)) db1 Hwf1)
    as [db2 [E2 [Hwf2 Hr2]]].
  { destruct Hwf1 as (_ & H2 & _ & H5 & _).
    rewrite Forall_forall in *. intros a Ha.
    assert (Hin1 : In a (actions db1)).
    { apply (Permutation_in a
               (Permutation_sym (sorted_perm due_key date_ltb _))) in Ha.
      unfold reg_actions in Ha. apply filter_In in Ha. tauto. }
    split; [apply H2 | apply H5]; exact Hin1. }
  rewrite E2.
  destruct (add_action_well_formed clock (p_add p) reg db2 Hwf2)
    as [db3 [E3 Hwf3]].
  { rewrite Hr2, Hr1. apply in_map; exact Hin. }
  rewrite E3. exists db3. auto.
Qed.

Lemma reachable_well_formed (db : DB) : Reachable db -> well_formed db.
Proof.
  induction 1 as [|clock p reg db _ IH Hget].
  - rewrite seed_db_eq. exact seed_well_formed.
  - destruct (run_pane_well_formed clock p reg db IH Hget) as [db' [E Hwf]].
    rewrite E. exact Hwf.
Qed.





(** X19: in every reachable database [completed_at] is set exactly on
    the actions whose status is "Done". *)
Theorem reachable_completed_iff_done (db : DB) (Hreach : Reachable db) :
  Forall completed_iff_done (actions db).
Proof. apply (reachable_well_formed db Hreach). Qed.

Lemma reachable_completed_iff_done_witness :
  Forall completed_iff_done (actions after_one_run).
Proof.
  refine (reachable_completed_iff_done after_one_run _).
  apply (Reachable_run clock0 busy_pane r1 _ Reachable_seed).
  vm_compute. reflexivity.
Defined.

(** X21: in every reachable database every status is one of its
    enumerated values: "Planned", "In Progress", "Done" or "Blocked"
    for an action, "Open", "In Progress" or "Closed" for a
    regulation. *)
Theorem reachable_statuses_legal (db : DB) (Hreach : Reachable db) :
  (forall a, In a (actions db) ->
     exists s, Action.status a = Some s /\ In s ACTION_STATUSES)
  /\ (forall r, In r (regulations db) ->
     exists s, Regulation.status r = Some s /\ In s REGULATION_STATUSES).
Proof.
  destruct (reachable_well_formed db Hreach)
    as (_ & H2 & _ & _ & H6 & _).
  rewrite Forall_forall in H2, H6. split; [exact H2 | exact H6].
Qed.

Lemma reachable_statuses_legal_witness :
  (forall a, In a (actions after_one_run) ->
     exists s, Action.status a = Some s /\ In s ACTION_STATUSES)
  /\ (forall r, In r (regulations after_one_run) ->
     exists s, Regulation.status r = Some s /\ In s REGULATION_STATUSES).
Proof.
  refine (reachable_statuses_legal after_one_run _).
  apply (Reachable_run clock0 busy_pane r1 _ Reachable_seed).
  vm_compute. reflexivity.
Defined.

(** X22: in every reachable database the ids of the actions are
    pairwise distinct and every action belongs to a regulation of the
    table. *)
Theorem reachable_keys (db : DB) (Hreach : Reachable db) :
  NoDup (List.map Action.id (actions db))
  /\ (forall a, In a (actions db) ->
      exists r, In r (regulations db)
                /\ Action.regulation_id a = Some (Regulation.id r))
  /\ (forall a, In a (actions db) -> get_action db (Action.id a) = Some a).
Proof.
  destruct (reachable_well_formed db Hreach)
    as (_ & _ & H4 & H5 & _).
  split; [exact H4|]. split.
  - rewrite Forall_forall in H5. intros a Ha.
    destruct (H5 a Ha) as [i [Hi E]].
    apply in_map_iff in Hi. destruct Hi as [r [<- Hr]].
    exists r. auto.
  - intros a Ha. unfold get_action.
    destruct (List.find _ (actions db)) as [x|] eqn:E.
    + apply find_some in E. destruct E as [Hx E]. apply Z.eqb_eq in E.
      f_equal. apply (NoDup_map_In_eq Action.id (actions db)); auto.
    + exfalso. apply (find_none _ _ E) in Ha.
      rewrite Z.eqb_refl in Ha. discriminate.
Qed.

Lemma reachable_keys_witness :
  NoDup (List.map Action.id (actions after_one_run))
  /\ (forall a, In a (actions after_one_run) ->
      exists r, In r (regulations after_one_run)
                /\ Action.regulation_id a = Some (Regulation.id r))
  /\ (forall a, In a (actions after_one_run) ->
      get_action after_one_run (Action.id a) = Some a).
Proof.
  refine (reachable_keys after_one_run _).
  apply (Reachable_run clock0 busy_pane r1 _ Reachable_seed).
  vm_compute. reflexivity.
Defined.

(** X23: the script never adds, removes, reorders or rewrites a
    regulation or a link: in every reachable database the regulations
    are the three seeded ones, in seed order and equal to them in every
    column but the status, and the links table is the seeded one. *)
Theorem reachable_regulations_fixed (db : DB) (Hreach : Reachable db) :
  List.map fixed_part (regulations db) = List.map fixed_part [r1; r2; r3]
  /\ List.map Regulation.id (regulations db) = [1; 2; 3]
  /\ List.map Regulation.title (regulations db)
     = List.map Regulation.title [r1; r2; r3]
  /\ regulation_links db = regulation_links seed_db.
Proof.
  pose proof (reachable_well_formed db Hreach) as Hwf.
  pose proof (well_formed_regulation_ids db Hwf) as Hids.
  destruct Hwf as (_ & _ & _ & _ & _ & H7 & H8).
  split; [exact H7|]. split; [exact Hids|]. split; [|exact H8].
  transitivity (List.map Regulation.title (List.map fixed_part (regulations db))).
  - rewrite map_map. apply map_ext. reflexivity.
  - rewrite H7. reflexivity.
Qed.

Lemma reachable_regulations_fixed_witness :
  List.map fixed_part (regulations after_one_run)
  = List.map fixed_part [r1; r2; r3]
  /\ List.map Regulation.id (regulations after_one_run) = [1; 2; 3]
  /\ List.map Regulation.title (regulations after_one_run)
     = List.map Regulation.title [r1; r2; r3]
  /\ regulation_links after_one_run = regulation_links seed_db.
Proof.
  refine (reachable_regulations_fixed after_one_run _).
  apply (Reachable_run clock0 busy_pane r1 _ Reachable_seed).
  vm_compute. reflexivity.
Defined.

Example after_one_run_contents :
  List.map (fun a => (Action.id a, Action.status a, Action.completed_at a))
           (actions after_one_run)
  = [ (1, Some Done, Some (utcnow clock0));
      (3, Some (lit "Planned"), None);
      (4, Some (lit "Planned"), None) ]
  /\ List.map Regulation.status (regulations after_one_run)
     = [Some (lit "Closed"); Some (lit "Open"); Some (lit "Open")].
Proof. vm_compute. auto. Qed.
